(** * The [Internet] module of faker: a shallow embedding and its properties

    The generators of [class Internet] are translated as state-passing
    functions over the state of the random provider they draw from.
    JavaScript strings are modelled as [string] (sequences of code units
    below 256, read as Latin-1), JavaScript numbers that are integers as
    [Z], optional arguments as [option]. *)

From Stdlib Require Import ZArith List String Ascii Bool Lia.
Import ListNotations.

Local Open Scope string_scope.
Local Open Scope Z_scope.

(** ** JavaScript primitives used by the module *)

Module JS.

(** [s.length] *)
Definition len (s : string) : Z := Z.of_nat (String.length s).

(** A one-character string. *)
Definition str1 (c : ascii) : string := String c EmptyString.

Definition code (c : ascii) : Z := Z.of_nat (nat_of_ascii c).

(** [String.fromCharCode(n)], for a code unit below 256. *)
Definition fromCharCode (n : Z) : string :=
  str1 (ascii_of_nat (Z.to_nat n)).

Definition is_upper (c : ascii) : bool := (65 <=? code c) && (code c <=? 90).
Definition is_lower (c : ascii) : bool := (97 <=? code c) && (code c <=? 122).
Definition is_digit (c : ascii) : bool := (48 <=? code c) && (code c <=? 57).

(** The capital letters above the ASCII range: the code units 192 to 222,
    the multiplication sign (215) apart. *)
Definition is_upper_latin1 (c : ascii) : bool :=
  (192 <=? code c) && (code c <=? 222) && negb (code c =? 215).

(** The lower-case form of a code unit: a capital letter, ASCII or not, is
    32 places below its lower-case form. *)
Definition lower_char (c : ascii) : ascii :=
  if is_upper c || is_upper_latin1 c
  then ascii_of_nat (nat_of_ascii c + 32)
  else c.

(** [s.toLowerCase()] *)
Fixpoint toLowerCase (s : string) : string :=
  match s with
  | EmptyString => EmptyString
  | String c r => String (lower_char c) (toLowerCase r)
  end.

(** Membership of a character in a character class written as the string
    of its members. *)
Fixpoint mem_char (c : ascii) (cls : string) : bool :=
  match cls with
  | EmptyString => false
  | String d r => Ascii.eqb c d || mem_char c r
  end.

(** The last character of a string, if any. *)
Fixpoint last_char (s : string) : option ascii :=
  match s with
  | EmptyString => None
  | String c EmptyString => Some c
  | String _ r => last_char r
  end.

(** [s.replace(/[cls]/g, '')]: every member of the class is removed. *)
Fixpoint remove_class (cls : string) (s : string) : string :=
  match s with
  | EmptyString => EmptyString
  | String c r =>
      if mem_char c cls then remove_class cls r
      else String c (remove_class cls r)
  end.

(** [\s] on 8-bit code units: tab, line feed, vertical tab, form feed,
    carriage return, space and the no-break space. *)
Definition is_space (c : ascii) : bool :=
  ((9 <=? code c) && (code c <=? 13)) || (code c =? 32) || (code c =? 160).

(** [s.replace(/\s/g, '-')] *)
Fixpoint spaces_to_hyphens (s : string) : string :=
  match s with
  | EmptyString => EmptyString
  | String c r =>
      String (if is_space c then "-"%char else c) (spaces_to_hyphens r)
  end.

(** [s.replace(/-{2,}/g, '-')]: a run of hyphens becomes one hyphen. *)
Fixpoint collapse_hyphens (s : string) : string :=
  match s with
  | EmptyString => EmptyString
  | String c r =>
      match r with
      | String d _ =>
          if Ascii.eqb c "-" && Ascii.eqb d "-" then collapse_hyphens r
          else String c (collapse_hyphens r)
      | EmptyString => String c EmptyString
      end
  end.

(** [s.includes(sub)] *)
Fixpoint includes (sub s : string) : bool :=
  String.prefix sub s ||
  match s with
  | EmptyString => false
  | String _ r => includes sub r
  end.

(** The digit of value [d] in [Number.prototype.toString(radix)]. *)
Definition digit_char (d : Z) : ascii :=
  nth (Z.to_nat d) (list_ascii_of_string "0123456789abcdefghijklmnopqrstuvwxyz")
      "0"%char.

Fixpoint digits (fuel : nat) (radix n : Z) (acc : string) : string :=
  let acc' := String (digit_char (n mod radix)) acc in
  match fuel with
  | O => acc'
  | S f => if n / radix =? 0 then acc' else digits f radix (n / radix) acc'
  end.

(** [n.toString(radix)] for an integer [n]; [radix] is 10 or 16 here. *)
Definition toString (radix n : Z) : string :=
  if n <? 0 then "-" ++ digits (Z.to_nat (Z.log2 (- n))) radix (- n) ""
  else digits (Z.to_nat (Z.log2 n)) radix n "".

(** [list.join(sep)] *)
Definition join (sep : string) (l : list string) : string :=
  String.concat sep l.

(** A regular expression is modelled by the test it performs on a subject
    string: [re s = true] when [s.match(re)] is not [null].  The test is a
    function of the subject: a sticky pattern, which keeps a position from
    one test to the next, is outside the model. *)
Definition RegExp : Type := string -> bool.

(** [/[cls]$/]: the subject ends with a member of the class. *)
Definition ends_in (cls : string) : RegExp :=
  fun s => match last_char s with
           | Some c => mem_char c cls
           | None => false
           end.

Definition is_word (c : ascii) : bool :=
  is_upper c || is_lower c || is_digit c || Ascii.eqb c "_".

(** [/\w/]: the subject holds a word character somewhere. *)
Fixpoint word (s : string) : bool :=
  match s with
  | EmptyString => false
  | String c r => is_word c || word r
  end.

End JS.

(** ** Results, errors and the collaborators of the module *)

Inductive error : Type :=
| TypeError     (* a method was called on [undefined] *)
| ChoiceError   (* the chooser refused the list it was given *)
| OutOfFuel.    (* the recursion budget of the model is spent *)

Inductive res (A : Type) : Type :=
| Ok (a : A)
| Err (e : error).

Arguments Ok {A} a.
Arguments Err {A} e.

(** [this.faker]: the random provider and the other collaborators the module
    reaches through it.  None of them is defined in this module; they are
    parameters, with the contract the specification gives the random
    provider: a draw [datatype.number(max)] lies in [[0, max]], both ends
    included, and advances the provider's state; [random.arrayElement]
    returns a member of a non-empty list (what it does with an empty list is
    left open).  The name, word and user-agent generators draw from the same
    provider; [helpers.slugify] is a function of its argument. *)
Class Faker : Type := {
  rng : Type;
  datatype_number : Z -> rng -> Z * rng;
  datatype_number_range :
    forall max s, 0 <= max -> 0 <= fst (datatype_number max s) <= max;
  random_arrayElement : list string -> rng -> res (string * rng);
  random_arrayElement_In :
    forall l s, l <> [] ->
      exists x s', random_arrayElement l s = Ok (x, s') /\ In x l;
  name_firstName : rng -> string * rng;
  name_lastName : rng -> string * rng;
  word_adjective : rng -> string * rng;
  word_noun : rng -> string * rng;
  random_ua_generate : rng -> string * rng;
  helpers_slugify : string -> string;
  free_email : list string;
  example_email : list string;
  domain_suffix : list string
}.

(** ** The generators *)

Section Internet.

Context {F : Faker}.

(** A generator reads and advances the provider's state and may throw. *)
Definition M (A : Type) : Type := rng -> res (A * rng).

Definition ret {A} (a : A) : M A := fun s => Ok (a, s).

Definition bind {A B} (c : M A) (k : A -> M B) : M B :=
  fun s => match c s with
           | Ok (a, s') => k a s'
           | Err e => Err e
           end.

Definition throw {A} (e : error) : M A := fun _ => Err e.

Definition lift {A} (f : rng -> A * rng) : M A := fun s => Ok (f s).

Notation "x <- c ;; k" := (bind c (fun x => k))
  (at level 61, c at next level, right associativity).

Definition number (max : Z) : M Z := lift (datatype_number max).

Definition arrayElement (l : list string) : M string := random_arrayElement l.

(** [v || d] on an optional string: [undefined] and [''] are falsy. *)
Definition or_else (v : option string) (d : M string) : M string :=
  match v with
  | Some (String _ _ as x) => ret x
  | _ => d
  end.

(** [c] run [n] times, the results in order. *)
Fixpoint times {A} (n : nat) (c : M A) : M (list A) :=
  match n with
  | O => ret []
  | S n' => x <- c ;; xs <- times n' c ;; ret (x :: xs)
  end.

Definition avatar : M string :=
  n <- number 1249 ;;
  ret ("https://cloudflare-ipfs.com/ipfs/Qmd3W5DuhgHirLHGVixi6V76LhCkZUz6pnFt5AJBiyvHye/avatar/"
         ++ JS.toString 10 n ++ ".jpg").

Definition userName (firstName lastName : option string) : M string :=
  firstName <- or_else firstName (lift name_firstName) ;;
  lastName <- or_else lastName (lift name_lastName) ;;
  t <- number 2 ;;
  result <-
    match t with
    | 0 =>
        n <- number 99 ;;
        ret (firstName ++ JS.toString 10 n)
    | 1 =>
        sep <- arrayElement ["."; "_"] ;;
        ret (firstName ++ sep ++ lastName)
    | 2 =>
        sep <- arrayElement ["."; "_"] ;;
        n <- number 99 ;;
        ret (firstName ++ sep ++ lastName ++ JS.toString 10 n)
    | _ => throw TypeError
    end ;;
  let result := JS.remove_class "'" result in
  let result := JS.remove_class " " result in
  ret result.

Definition email (firstName lastName provider : option string) : M string :=
  provider <- or_else provider (arrayElement free_email) ;;
  u <- userName firstName lastName ;;
  ret (helpers_slugify u ++ "@" ++ provider).

Definition exampleEmail (firstName lastName : option string) : M string :=
  provider <- arrayElement example_email ;;
  email firstName lastName (Some provider).

Definition protocol : M string := arrayElement ["http"; "https"].

Definition httpMethod : M string :=
  arrayElement ["GET"; "POST"; "PUT"; "DELETE"; "PATCH"].

Definition domainSuffix : M string := arrayElement domain_suffix.

(** The characters [domainWord] strips: the double quote (code 34), the
    backslash, the apostrophe and the listed punctuation. *)
Definition domainWord_stripped : string :=
  String (ascii_of_nat 34) "\~#&*{}/:<>?|'".

Definition domainWord : M string :=
  a <- lift word_adjective ;;
  n <- lift word_noun ;;
  ret (JS.toLowerCase
         (JS.collapse_hyphens
            (JS.spaces_to_hyphens
               (JS.remove_class domainWord_stripped (a ++ "-" ++ n))))).

Definition domainName : M string :=
  w <- domainWord ;;
  x <- domainSuffix ;;
  ret (w ++ "." ++ x).

Definition url : M string :=
  p <- protocol ;;
  d <- domainName ;;
  ret (p ++ "://" ++ d).

Definition ipv4 : M string :=
  let randNum := (n <- number 255 ;; ret (JS.toString 10 n)) in
  result <- times 4 randNum ;;
  ret (JS.join "." result).

Definition ip : M string := ipv4.

Definition ipv6 : M string :=
  let randHash :=
    (cs <- times 4 (arrayElement
                      ["0"; "1"; "2"; "3"; "4"; "5"; "6"; "7";
                       "8"; "9"; "a"; "b"; "c"; "d"; "e"; "f"]) ;;
     ret (JS.join "" cs)) in
  result <- times 8 randHash ;;
  ret (JS.join ":" result).

Definition port : M Z := number 65535.

Definition userAgent : M string := lift random_ua_generate.

Definition color (baseRed255 baseGreen255 baseBlue255 : option Z) : M string :=
  let baseRed255 := match baseRed255 with Some b => b | None => 0 end in
  let baseGreen255 := match baseGreen255 with Some b => b | None => 0 end in
  let baseBlue255 := match baseBlue255 with Some b => b | None => 0 end in
  r <- number 256 ;;
  let red := (r + baseRed255) / 2 in
  g <- number 256 ;;
  let green := (g + baseGreen255) / 2 in
  b <- number 256 ;;
  let blue := (b + baseBlue255) / 2 in
  let redStr := JS.toString 16 red in
  let greenStr := JS.toString 16 green in
  let blueStr := JS.toString 16 blue in
  ret ("#"
         ++ (if JS.len redStr =? 1 then "0" else "") ++ redStr
         ++ (if JS.len greenStr =? 1 then "0" else "") ++ greenStr
         ++ (if JS.len blueStr =? 1 then "0" else "") ++ blueStr).

(** The separator [mac] uses: the requested one when it is ['-'] or [''],
    the default [':'] otherwise. *)
Definition validSep (sep : option string) : string :=
  match sep with
  | Some x => if existsb (String.eqb x) ["-"; ""] then x else ":"
  | None => ":"
  end.

(** The loop [for (i = 0; i < 12; i++)] of [mac], with [todo = 12 - i]
    rounds left. *)
Fixpoint mac_loop (todo : nat) (i : Z) (vsep mac : string) : M string :=
  match todo with
  | O => ret mac
  | S todo' =>
      d <- number 15 ;;
      let mac := mac ++ JS.toString 16 d in
      let mac :=
        if (i mod 2 =? 1) && negb (i =? 11) then mac ++ vsep else mac in
      mac_loop todo' (i + 1) vsep mac
  end.

Definition mac (sep : option string) : M string :=
  mac_loop 12 0 (validSep sep) "".

Definition vowels : string := "aeiouAEIOU".

Definition consonants : string := "bcdfghjklmnpqrstvwxyzBCDFGHJKLMNPQRSTVWXYZ".

(** [/[aeiouAEIOU]$/] *)
Definition vowel : JS.RegExp := JS.ends_in vowels.

(** [/[bcdfghjklmnpqrstvwxyzBCDFGHJKLMNPQRSTVWXYZ]$/] *)
Definition consonant : JS.RegExp := JS.ends_in consonants.

(** Lines 398-404 of [_password]: the pattern the next character is
    tested against. *)
Definition active_pattern (memorable : bool) (pattern : JS.RegExp)
    (prefix : string) : JS.RegExp :=
  if memorable then
    if consonant prefix then vowel else consonant
  else pattern.

(** Line 405: the character code that is sampled. *)
Definition sample_code : M Z :=
  k <- number 94 ;;
  ret (k + 33).

(** Lines 405-409: the candidate character. *)
Definition candidate (memorable : bool) : M string :=
  n <- sample_code ;;
  let char := JS.fromCharCode n in
  ret (if memorable then JS.toLowerCase char else char).

(** The recursive generator.  The recursion of the source is not bounded;
    [fuel] bounds the number of characters drawn, and [OutOfFuel] stands
    for a run that needs more. *)
Fixpoint _password (fuel : nat) (length : Z) (memorable : bool)
    (pattern : JS.RegExp) (prefix : string) : M string :=
  if JS.len prefix >=? length then ret prefix
  else
    match fuel with
    | O => throw OutOfFuel
    | S fuel' =>
        let pattern := active_pattern memorable pattern prefix in
        char <- candidate memorable ;;
        if negb (pattern char) then
          _password fuel' length memorable pattern prefix
        else
          _password fuel' length memorable pattern (prefix ++ char)
    end.

(** The defaults of [password]: [len || 15], [memorable] false when it is
    [null] or [undefined], and the default parameters [/\w/] and [''] of
    [_password]. *)
Definition len_arg (len : option Z) : Z :=
  match len with
  | Some 0 | None => 15
  | Some l => l
  end.

Definition memorable_arg (memorable : option bool) : bool :=
  match memorable with
  | Some m => m
  | None => false
  end.

Definition pattern_arg (pattern : option JS.RegExp) : JS.RegExp :=
  match pattern with
  | Some p => p
  | None => JS.word
  end.

Definition prefix_arg (prefix : option string) : string :=
  match prefix with
  | Some p => p
  | None => ""
  end.

Definition password (fuel : nat) (len : option Z) (memorable : option bool)
    (pattern : option JS.RegExp) (prefix : option string) : M string :=
  _password fuel (len_arg len) (memorable_arg memorable)
    (pattern_arg pattern) (prefix_arg prefix).

(** [obeys memorable pattern prefix suffix]: each character of [suffix]
    passes the test that is active where it stands, after [prefix] and the
    characters before it. *)
Fixpoint obeys (memorable : bool) (pattern : JS.RegExp)
    (prefix suffix : string) : bool :=
  match suffix with
  | EmptyString => true
  | String c rest =>
      active_pattern memorable pattern prefix (JS.str1 c)
      && obeys memorable pattern (prefix ++ JS.str1 c) rest
  end.

(** ** Generation sessions *)

(** One call of the public surface, with its arguments. *)
Inductive call : Type :=
| CallAvatar
| CallEmail (firstName lastName provider : option string)
| CallExampleEmail (firstName lastName : option string)
| CallUserName (firstName lastName : option string)
| CallProtocol
| CallHttpMethod
| CallUrl
| CallDomainName
| CallDomainSuffix
| CallDomainWord
| CallIp
| CallIpv4
| CallIpv6
| CallPort
| CallUserAgent
| CallColor (baseRed255 baseGreen255 baseBlue255 : option Z)
| CallMac (sep : option string)
| CallPassword (len : option Z) (memorable : option bool)
    (pattern : option JS.RegExp) (prefix : option string).

(** What a call returns: every generator returns a string, [port] a number. *)
Inductive value : Type :=
| VString (s : string)
| VNumber (n : Z).

Definition invoke (fuel : nat) (c : call) : M value :=
  match c with
  | CallAvatar => r <- avatar ;; ret (VString r)
  | CallEmail f l p => r <- email f l p ;; ret (VString r)
  | CallExampleEmail f l => r <- exampleEmail f l ;; ret (VString r)
  | CallUserName f l => r <- userName f l ;; ret (VString r)
  | CallProtocol => r <- protocol ;; ret (VString r)
  | CallHttpMethod => r <- httpMethod ;; ret (VString r)
  | CallUrl => r <- url ;; ret (VString r)
  | CallDomainName => r <- domainName ;; ret (VString r)
  | CallDomainSuffix => r <- domainSuffix ;; ret (VString r)
  | CallDomainWord => r <- domainWord ;; ret (VString r)
  | CallIp => r <- ip ;; ret (VString r)
  | CallIpv4 => r <- ipv4 ;; ret (VString r)
  | CallIpv6 => r <- ipv6 ;; ret (VString r)
  | CallPort => r <- port ;; ret (VNumber r)
  | CallUserAgent => r <- userAgent ;; ret (VString r)
  | CallColor r g b => x <- color r g b ;; ret (VString x)
  | CallMac sep => r <- mac sep ;; ret (VString r)
  | CallPassword n m p x => r <- password fuel n m p x ;; ret (VString r)
  end.

(** A session issues its calls in order on one provider.  It yields the
    values returned so far and either the provider's final state or the
    error that ended it. *)
Fixpoint session (fuel : nat) (calls : list call) (s : rng)
  : list value * res rng :=
  match calls with
  | [] => ([], Ok s)
  | c :: calls' =>
      match invoke fuel c s with
      | Ok (v, s') =>
          let (vs, fin) := session fuel calls' s' in (v :: vs, fin)
      | Err e => ([], Err e)
      end
  end.

End Internet.

(** ** Vocabulary of the statements *)

(** What is asked of a result [r] of [userName "Jeanne" "Doe"], built with
    or without the last name. *)
Definition Jeanne_ok (with_Doe : bool) (r : string) : bool :=
  JS.includes "Jeanne" r
  && Bool.eqb (JS.includes "Doe" r) with_Doe
  && negb (JS.includes "'" r)
  && negb (JS.includes " " r).

(** The two replacements that end [userName]. *)
Definition strip (r : string) : string :=
  JS.remove_class " " (JS.remove_class "'" r).

(** The hexadecimal digit of a nibble, as a one-character string. *)
Definition nibble (d : Z) : string := JS.str1 (JS.digit_char d).

(** The strings of a list joined two by two. *)
Fixpoint pairs (l : list string) : list string :=
  match l with
  | a :: b :: r => (a ++ b) :: pairs r
  | _ => l
  end.

(** The address made of the nibbles [ds]: the pairs of digits, [vsep]
    between one pair and the next. *)
Definition mac_of (vsep : string) (ds : list Z) : string :=
  JS.join vsep (pairs (map nibble ds)).

Section Draws.

Context {F : Faker}.

(** [n] successive draws [datatype.number(max)], and the state they leave. *)
Fixpoint draws (n : nat) (max : Z) (s : rng) : list Z * rng :=
  match n with
  | O => ([], s)
  | S n' =>
      let (d, s1) := datatype_number max s in
      let (ds, s2) := draws n' max s1 in
      (d :: ds, s2)
  end.

End Draws.

(** A byte written as two hexadecimal digits. *)
Definition hex2 (v : Z) : string :=
  String (JS.digit_char (v / 16)) (String (JS.digit_char (v mod 16)) "").

Definition is_hex_lower (x : string) : bool :=
  forallb (fun c => JS.mem_char c "0123456789abcdef") (list_ascii_of_string x).

(** Two sessions are run on two providers, which may even be two different
    implementations; [R] relates the states in which the two providers are
    about to answer alike. *)

Section Agreement.

Variables F1 F2 : Faker.

Variable R : @rng F1 -> @rng F2 -> Prop.

(** Two outcomes agree: the same value and related states, or the same
    error. *)
Definition agree {A : Type} (x : res (A * @rng F1)) (y : res (A * @rng F2))
  : Prop :=
  match x, y with
  | Ok (a, s1), Ok (b, s2) => a = b /\ R s1 s2
  | Err e1, Err e2 => e1 = e2
  | _, _ => False
  end.

(** Two generators agree from related states. *)
Definition agree_M {A : Type} (c1 : @M F1 A) (c2 : @M F2 A) : Prop :=
  forall s1 s2, R s1 s2 -> agree (c1 s1) (c2 s2).

(** The two providers answer alike and keep doing so; the other
    collaborators are the same on both sides. *)
Record same_draws : Prop := {
  same_number :
    forall max, agree_M (lift (@datatype_number F1 max))
                        (lift (@datatype_number F2 max));
  same_arrayElement :
    forall l, agree_M (@random_arrayElement F1 l) (@random_arrayElement F2 l);
  same_firstName : agree_M (lift (@name_firstName F1)) (lift (@name_firstName F2));
  same_lastName : agree_M (lift (@name_lastName F1)) (lift (@name_lastName F2));
  same_adjective : agree_M (lift (@word_adjective F1)) (lift (@word_adjective F2));
  same_noun : agree_M (lift (@word_noun F1)) (lift (@word_noun F2));
  same_ua : agree_M (lift (@random_ua_generate F1)) (lift (@random_ua_generate F2));
  same_slugify : forall x, @helpers_slugify F1 x = @helpers_slugify F2 x;
  same_free_email : @free_email F1 = @free_email F2;
  same_example_email : @example_email F1 = @example_email F2;
  same_domain_suffix : @domain_suffix F1 = @domain_suffix F2
}.

(** How two sessions end alike. *)
Definition agree_end (x : res (@rng F1)) (y : res (@rng F2)) : Prop :=
  match x, y with
  | Ok s1, Ok s2 => R s1 s2
  | Err e1, Err e2 => e1 = e2
  | _, _ => False
  end.

End Agreement.

Arguments same_number {F1 F2 R} _.
Arguments same_arrayElement {F1 F2 R} _.
Arguments same_firstName {F1 F2 R} _.
Arguments same_lastName {F1 F2 R} _.
Arguments same_adjective {F1 F2 R} _.
Arguments same_noun {F1 F2 R} _.
Arguments same_ua {F1 F2 R} _.
Arguments same_slugify {F1 F2 R} _.
Arguments same_free_email {F1 F2 R} _.
Arguments same_example_email {F1 F2 R} _.
Arguments same_domain_suffix {F1 F2 R} _.

(** Every character of [s] passes the test [p]. *)
Definition all_chars (p : ascii -> bool) (s : string) : bool :=
  forallb p (list_ascii_of_string s).

(** What [domainWord] leaves no trace of: upper-case letters, blanks and the
    stripped punctuation. *)
Definition domain_char (c : ascii) : bool :=
  negb (JS.is_upper c) && negb (JS.is_space c)
  && negb (JS.mem_char c domainWord_stripped).

(** [s.split(c)] for a one-character separator. *)
Fixpoint split_on (c : ascii) (s : string) : list string :=
  match s with
  | EmptyString => [EmptyString]
  | String d r =>
      if Ascii.eqb d c then EmptyString :: split_on c r
      else
        match split_on c r with
        | h :: t => String d h :: t
        | [] => [String d EmptyString]
        end
  end.

(** The number a string of decimal digits writes. *)
Fixpoint parse_dec_from (acc : Z) (s : string) : Z :=
  match s with
  | EmptyString => acc
  | String c r => parse_dec_from (10 * acc + (JS.code c - 48)) r
  end.

Definition parse_dec (s : string) : Z := parse_dec_from 0 s.

(** [base = 0] as a default parameter. *)
Definition base_arg (base : option Z) : Z :=
  match base with
  | Some b => b
  | None => 0
  end.

(** The letters of [s] are lower-case consonants and vowels in turn, the
    first one a vowel when [want_vowel] is set. *)
Fixpoint alternating (want_vowel : bool) (s : string) : bool :=
  match s with
  | EmptyString => true
  | String c r =>
      JS.mem_char c (if want_vowel then "aeiou" else "bcdfghjklmnpqrstvwxyz")
      && alternating (negb want_vowel) r
  end.

(** The decimal form of an octet: one to three digits, no dot, no leading
    zero, and it reads back as the octet. *)
Definition octet_ok (d : Z) : bool :=
  let o := JS.toString 10 d in
  negb (JS.mem_char "." o)
  && (parse_dec o =? d)
  && all_chars JS.is_digit o
  && (1 <=? JS.len o) && (JS.len o <=? 3)
  && ((d =? 0) || negb (String.prefix "0" o)).

(** The characters sampled from the draws [ds]: the draw [d] gives the
    character of code [d + 33]. *)
Fixpoint chars_of (ds : list Z) : string :=
  match ds with
  | [] => EmptyString
  | d :: ds' => JS.fromCharCode (d + 33) ++ chars_of ds'
  end.

(** The class memorable mode asks of the next character, read off the last
    character [prev] of the prefix: a vowel after a consonant, a consonant
    after anything else and at the start. *)
Definition required_class (prev : option ascii) : string :=
  match prev with
  | Some l => if JS.mem_char l consonants then vowels else consonants
  | None => consonants
  end.

(** Each character of [suffix] is in the class required after the character
    before it, [prev] standing before the first. *)
Fixpoint follows (prev : option ascii) (suffix : string) : bool :=
  match suffix with
  | EmptyString => true
  | String c rest =>
      JS.mem_char c (required_class prev) && follows (Some c) rest
  end.

(** ** Test doubles for the provider

    [Double.faker] builds a [this.faker] from a state type and a draw
    function: the chooser and the other collaborators draw an index. *)

Module Double.

Definition keep_slug (c : ascii) : bool :=
  JS.is_word c || Ascii.eqb c "." || Ascii.eqb c "-".

Fixpoint slugify (s : string) : string :=
  match s with
  | EmptyString => EmptyString
  | String c r =>
      if Ascii.eqb c " " then String "-" (slugify r)
      else if keep_slug c then String c (slugify r)
      else slugify r
  end.

Section Double.

Variable state : Type.

Variable draw : Z -> state -> Z * state.

Hypothesis draw_range :
  forall max t, 0 <= max -> 0 <= fst (draw max t) <= max.

Definition choose (l : list string) (t : state) : res (string * state) :=
  match l with
  | [] => Err ChoiceError
  | d :: _ =>
      let (i, t') := draw (Z.of_nat (List.length l) - 1) t in
      Ok (nth (Z.to_nat i) l d, t')
  end.

Definition pick (l : list string) (t : state) : string * state :=
  let (i, t') := draw (Z.of_nat (List.length l) - 1) t in
  (nth (Z.to_nat i) l "", t').

Lemma choose_In l t :
  l <> [] -> exists x t', choose l t = Ok (x, t') /\ In x l.
Proof.
  intros Hl. destruct l as [|d l']; [congruence|].
  unfold choose.
  pose proof (draw_range (Z.of_nat (List.length (d :: l')) - 1) t) as Hr.
  destruct (draw (Z.of_nat (List.length (d :: l')) - 1) t) as [i t'].
  simpl fst in Hr.
  exists (nth (Z.to_nat i) (d :: l') d), t'. split; [reflexivity|].
  apply nth_In. simpl List.length in *. lia.
Qed.

Definition faker : Faker := {|
  rng := state;
  datatype_number := draw;
  datatype_number_range := draw_range;
  random_arrayElement := choose;
  random_arrayElement_In := choose_In;
  name_firstName := pick ["Jeanne"; "D'Arcy"; "Mary Ann"];
  name_lastName := pick ["Doe"; "O'Neil"; "Van Dyke"];
  word_adjective := pick ["close"; "weird"; "slow"];
  word_noun := pick ["reality"; "cytoplasm"; "timer"];
  random_ua_generate := pick ["Mozilla/5.0"; "Opera/9.80"];
  helpers_slugify := slugify;
  free_email := ["gmail.com"; "yahoo.com"; "hotmail.com"];
  example_email := ["example.org"; "example.com"; "example.net"];
  domain_suffix := ["com"; "biz"; "info"; "name"; "net"; "org"]
|}.

End Double.

End Double.

(** A provider that replays a tape: the state is the list of raw draws
    still to come, a draw is the next raw value reduced to the requested
    range (0 once the tape is spent).  Every sequence of in-range draws is
    the replay of some tape. *)

Module Tape.

Definition draw (max : Z) (t : list Z) : Z * list Z :=
  match t with
  | [] => (0, [])
  | x :: t' => (x mod (max + 1), t')
  end.

Lemma tape_draw_range max t : 0 <= max -> 0 <= fst (draw max t) <= max.
Proof.
  intros Hmax. destruct t as [|x t']; simpl; [lia|].
  pose proof (Z.mod_pos_bound x (max + 1)). lia.
Qed.

Definition faker : Faker := Double.faker (list Z) draw tape_draw_range.

End Tape.

(** A provider that reads the same raw draws through a cursor: the state is
    a whole tape and the position of the next draw. *)

Module Cursor.

Definition draw (max : Z) (c : list Z * nat) : Z * (list Z * nat) :=
  let (t, i) := c in (nth i t 0 mod (max + 1), (t, S i)).

Lemma cursor_draw_range max c : 0 <= max -> 0 <= fst (draw max c) <= max.
Proof.
  intros Hmax. destruct c as [t i]. simpl.
  pose proof (Z.mod_pos_bound (nth i t 0) (max + 1)). lia.
Qed.

Definition faker : Faker := Double.faker (list Z * nat) draw cursor_draw_range.

(** The cursor stands where the tape is. *)
Definition replays (t : list Z) (c : list Z * nat) : Prop :=
  t = skipn (snd c) (fst c).

End Cursor.

(** ** The examples of the documentation, replayed

    Each example of the doc comments of the module is the result of the
    model on a suitable tape. *)

Example doc_userName :
  userName (F := Tape.faker) (Some "Jeanne") (Some "Doe") [0; 98]
  = Ok ("Jeanne98", []).
Proof. reflexivity. Qed.

Example doc_email :
  email (F := Tape.faker) (Some "Jeanne") (Some "Doe")
    (Some "example.fakerjs.dev") [2; 1; 88]
  = Ok ("Jeanne_Doe88@example.fakerjs.dev", []).
Proof. reflexivity. Qed.

Example doc_ipv4 :
  ipv4 (F := Tape.faker) [245; 108; 222; 0] = Ok ("245.108.222.0", []).
Proof. reflexivity. Qed.

Example doc_ipv6 :
  ipv6 (F := Tape.faker)
    [2; 6; 9; 15; 1; 2; 3; 0; 7; 3; 14; 3; 3; 1; 8; 13; 8; 4; 2; 11; 13; 10; 10; 11; 3; 2; 6; 13; 8; 9; 7; 11]
  = Ok ("269f:1230:73e3:318d:842b:daab:326d:897b", []).
Proof. reflexivity. Qed.

Example doc_color :
  color (F := Tape.faker) None None None [96; 208; 220] = Ok ("#30686e", []).
Proof. reflexivity. Qed.

Example doc_mac :
  mac (F := Tape.faker) None [3; 2; 8; 14; 2; 14; 0; 9; 12; 6; 0; 5]
  = Ok ("32:8e:2e:09:c6:05", []).
Proof. reflexivity. Qed.

Example doc_password_memorable :
  password (F := Tape.faker) 20 (Some 20) (Some true) None None
    [75; 64; 86; 68; 83; 72; 76; 84; 69; 78; 89; 84; 73; 78; 82; 78; 67; 68; 67; 72]
  = Ok ("lawetimufozujosodedi", []).
Proof. reflexivity. Qed.

Example doc_domainWord :
  domainWord (F := Tape.faker) [0; 0] = Ok ("close-reality", []).
Proof. reflexivity. Qed.

Example toString_decimal : JS.toString 10 1249 = "1249".
Proof. reflexivity. Qed.

Example toString_hexadecimal : JS.toString 16 255 = "ff".
Proof. reflexivity. Qed.

Example toLowerCase_latin1 :
  JS.toLowerCase (String (ascii_of_nat 201) (String (ascii_of_nat 215) "Az"))
  = String (ascii_of_nat 233) (String (ascii_of_nat 215) "az").
Proof. reflexivity. Qed.

Example collapse_hyphens_runs : JS.collapse_hyphens "a---b-c--" = "a-b-c-".
Proof. reflexivity. Qed.

(** ** Strings *)

Lemma append_nil_r (s : string) : s ++ "" = s.
Proof. induction s as [|c r IH]; simpl; congruence. Qed.

Lemma append_assoc (a b c : string) : (a ++ b) ++ c = a ++ b ++ c.
Proof. induction a as [|x r IH]; simpl; congruence. Qed.

Lemma len_append (a b : string) : JS.len (a ++ b) = JS.len a + JS.len b.
Proof.
  unfold JS.len. induction a as [|x r IH]; simpl String.length; [reflexivity|].
  rewrite !Nat2Z.inj_succ. lia.
Qed.

Lemma len_nonneg (a : string) : 0 <= JS.len a.
Proof. unfold JS.len. lia. Qed.

Lemma last_char_app (p : string) (c : ascii) :
  JS.last_char (p ++ JS.str1 c) = Some c.
Proof.
  induction p as [|d r IH]; [reflexivity|].
  cbn [append JS.last_char]. rewrite IH.
  destruct (r ++ JS.str1 c) eqn:E; [|reflexivity].
  destruct r; discriminate E.
Qed.

(** A property checked on every integer of [[0, n)] holds on the interval. *)
Lemma forallb_below (p : Z -> bool) (n : nat) :
  forallb p (map Z.of_nat (seq 0 n)) = true ->
  forall z, 0 <= z < Z.of_nat n -> p z = true.
Proof.
  intros Hall z Hz. rewrite forallb_forall in Hall. apply Hall.
  apply in_map_iff. exists (Z.to_nat z). split; [lia|].
  apply in_seq. lia.
Qed.

(** ** The password generator *)

Section Password.

Context {F : Faker}.

Lemma number_ok (max : Z) (s : rng) :
  0 <= max ->
  exists d s', number max s = Ok (d, s') /\ 0 <= d <= max.
Proof.
  intros Hmax. unfold number, lift.
  pose proof (datatype_number_range max s Hmax) as Hr.
  destruct (datatype_number max s) as [d s']. simpl in Hr.
  exists d, s'. split; [reflexivity | exact Hr].
Qed.

(** The sampled code lies in [[33, 127]], both ends included. *)
Lemma sample_code_ok (s : rng) :
  exists n s', sample_code s = Ok (n, s') /\ 33 <= n <= 127.
Proof.
  unfold sample_code, bind, ret.
  destruct (number_ok 94 s ltac:(lia)) as (k & s' & Hk & Hr).
  rewrite Hk. exists (k + 33), s'. split; [reflexivity | lia].
Qed.

(** The candidate is one character: the sampled one, lower-cased in
    memorable mode. *)
Lemma candidate_ok (memorable : bool) (s : rng) :
  exists n s',
    sample_code s = Ok (n, s') /\ 33 <= n <= 127 /\
    candidate memorable s =
      Ok (JS.str1 (let c := ascii_of_nat (Z.to_nat n) in
                   if memorable then JS.lower_char c else c), s').
Proof.
  destruct (sample_code_ok s) as (n & s' & Hn & Hr).
  exists n, s'. split; [exact Hn|]. split; [exact Hr|].
  unfold candidate, bind, ret. rewrite Hn.
  destruct memorable; reflexivity.
Qed.

Lemma _password_exit fuel length memorable pattern prefix s :
  JS.len prefix >= length ->
  _password fuel length memorable pattern prefix s = Ok (prefix, s).
Proof.
  intros Hlen.
  assert (Hb : (JS.len prefix >=? length) = true) by (apply Z.geb_le; lia).
  destruct fuel; simpl; rewrite Hb; reflexivity.
Qed.

(** In memorable mode the pattern handed over is never consulted. *)
Lemma obeys_active memorable pattern prefix0 prefix suffix :
  obeys memorable (active_pattern memorable pattern prefix0) prefix suffix
  = obeys memorable pattern prefix suffix.
Proof.
  revert prefix. induction suffix as [|c rest IH]; intros prefix; simpl.
  - reflexivity.
  - rewrite IH. destruct memorable; reflexivity.
Qed.

Lemma _password_sound fuel :
  forall length memorable pattern prefix s r s',
    _password fuel length memorable pattern prefix s = Ok (r, s') ->
    exists suffix,
      r = prefix ++ suffix /\
      obeys memorable pattern prefix suffix = true /\
      JS.len r = Z.max length (JS.len prefix).
Proof.
  induction fuel as [|fuel IH]; intros length memorable pattern prefix s r s' H;
    simpl in H; destruct (JS.len prefix >=? length) eqn:Hge.
  - inversion H; subst. exists "". rewrite append_nil_r.
    apply Z.geb_le in Hge. repeat split; lia.
  - discriminate.
  - inversion H; subst. exists "". rewrite append_nil_r.
    apply Z.geb_le in Hge. repeat split; lia.
  - rewrite Z.geb_leb in Hge. apply Z.leb_gt in Hge.
    unfold bind in H.
    destruct (candidate_ok memorable s) as (n & s1 & _ & _ & Hc).
    rewrite Hc in H.
    set (c := let c := ascii_of_nat (Z.to_nat n) in
              if memorable then JS.lower_char c else c) in *.
    destruct (active_pattern memorable pattern prefix (JS.str1 c)) eqn:Hacc;
      simpl in H; apply IH in H; destruct H as (suffix & Hr & Hob & Hlen).
    + exists (String c suffix). rewrite obeys_active in Hob.
      split; [|split].
      * rewrite Hr, append_assoc. reflexivity.
      * simpl. rewrite Hacc, Hob. reflexivity.
      * rewrite Hlen, len_append. unfold JS.str1, JS.len at 2. simpl. lia.
    + exists suffix. rewrite obeys_active in Hob. auto.
Qed.

(** [_password] returns or asks for more fuel: it throws nothing of its
    own. *)
Lemma _password_outcome fuel :
  forall length memorable pattern prefix s,
    (exists r s', _password fuel length memorable pattern prefix s = Ok (r, s'))
    \/ _password fuel length memorable pattern prefix s = Err OutOfFuel.
Proof.
  induction fuel as [|fuel IH]; intros length memorable pattern prefix s;
    simpl; destruct (JS.len prefix >=? length).
  - left. exists prefix, s. reflexivity.
  - right. reflexivity.
  - left. exists prefix, s. reflexivity.
  - unfold bind.
    destruct (candidate_ok memorable s) as (n & s1 & _ & _ & Hc).
    rewrite Hc.
    match goal with
    | |- context [if ?b then _ else _] => destruct b
    end; apply IH.
Qed.

(** Without memorable mode, [obeys] says that the pattern accepts every
    appended character. *)
Lemma obeys_plain pattern prefix suffix :
  obeys false pattern prefix suffix
  = forallb (fun c => pattern (JS.str1 c)) (list_ascii_of_string suffix).
Proof.
  revert prefix. induction suffix as [|c rest IH]; intros prefix; simpl.
  - reflexivity.
  - rewrite IH. reflexivity.
Qed.

(** C1 (amended): when [password] returns, the result is the prefix followed
    by drawn characters; each drawn character passes the test active where
    it stands (the pattern, or in memorable mode the class chosen from the
    character before it), and the length of the result is the larger of the
    requested length ([len || 15]) and the length of the prefix. *)
Theorem password_respects_constraint fuel len memorable pattern prefix s r s' :
  password fuel len memorable pattern prefix s = Ok (r, s') ->
  exists suffix,
    r = prefix_arg prefix ++ suffix /\
    obeys (memorable_arg memorable) (pattern_arg pattern)
      (prefix_arg prefix) suffix = true /\
    JS.len r = Z.max (len_arg len) (JS.len (prefix_arg prefix)).
Proof.
  unfold password. apply _password_sound.
Qed.

(** In memorable mode [obeys] is [follows]: the test on a character is
    read off the character before it. *)
Lemma obeys_follows pattern suffix :
  forall prefix,
    obeys true pattern prefix suffix = follows (JS.last_char prefix) suffix.
Proof.
  induction suffix as [|c rest IH]; intros prefix; [reflexivity|].
  cbn [obeys follows]. rewrite IH, last_char_app. f_equal.
  unfold active_pattern, consonant, vowel, JS.ends_in, required_class.
  destruct (JS.last_char prefix) as [l|]; cbn [JS.str1 JS.last_char].
  - destruct (JS.mem_char l consonants); reflexivity.
  - reflexivity.
Qed.

(** C3: in memorable mode the test on the next character is fixed by the
    last character of the prefix (a vowel is required after a consonant, a
    consonant otherwise), and the pattern argument changes nothing: not the
    active test, not the run of [_password], not the result of [password].
    Every step applies that test: a candidate in the required class is
    appended, any other is dropped and the prefix kept; so in what is
    returned each appended character is in the class required after the
    character before it. *)
Theorem memorable_constraint fuel length pattern1 pattern2 prefix s :
  (forall c,
      active_pattern true pattern1 prefix (JS.str1 c)
      = match JS.last_char prefix with
        | Some l =>
            if JS.mem_char l consonants then JS.mem_char c vowels
            else JS.mem_char c consonants
        | None => JS.mem_char c consonants
        end)
  /\ (forall prefix',
         JS.last_char prefix' = JS.last_char prefix ->
         active_pattern true pattern1 prefix'
         = active_pattern true pattern2 prefix)
  /\ _password fuel length true pattern1 prefix s
     = _password fuel length true pattern2 prefix s
  /\ (forall len opt1 opt2 pfx,
         password fuel len (Some true) opt1 pfx s
         = password fuel len (Some true) opt2 pfx s)
  /\ (JS.len prefix < length ->
      exists n s1 c,
        sample_code s = Ok (n, s1) /\
        c = JS.lower_char (ascii_of_nat (Z.to_nat n)) /\
        candidate true s = Ok (JS.str1 c, s1) /\
        _password (S fuel) length true pattern1 prefix s
        = if JS.mem_char c (required_class (JS.last_char prefix))
          then _password fuel length true pattern2 (prefix ++ JS.str1 c) s1
          else _password fuel length true pattern2 prefix s1)
  /\ (forall r s',
         _password fuel length true pattern1 prefix s = Ok (r, s') ->
         exists suffix,
           r = prefix ++ suffix /\
           follows (JS.last_char prefix) suffix = true)
  /\ (forall len opt pfx r s',
         password fuel len (Some true) opt pfx s = Ok (r, s') ->
         exists suffix,
           r = prefix_arg pfx ++ suffix /\
           follows (JS.last_char (prefix_arg pfx)) suffix = true).
Proof.
  assert (Hrun : forall fuel length p1 p2 prefix s,
             _password fuel length true p1 prefix s
             = _password fuel length true p2 prefix s).
  { intros fuel0 length0 p1 p2 prefix0 s0. destruct fuel0; reflexivity. }
  assert (Hfollows : forall fuel length p prefix s r s',
             _password fuel length true p prefix s = Ok (r, s') ->
             exists suffix,
               r = prefix ++ suffix /\
               follows (JS.last_char prefix) suffix = true).
  { intros fuel0 length0 p prefix0 s0 r s' H. apply _password_sound in H.
    destruct H as (suffix & Hr & Hob & _). exists suffix.
    rewrite obeys_follows in Hob. auto. }
  split; [|split; [|split; [|split; [|split; [|split]]]]].
  - intros c. unfold active_pattern, consonant, vowel, JS.ends_in.
    destruct (JS.last_char prefix) as [l|]; simpl JS.last_char.
    + destruct (JS.mem_char l consonants); reflexivity.
    + reflexivity.
  - intros prefix' Hlast. unfold active_pattern, consonant, JS.ends_in.
    rewrite Hlast. reflexivity.
  - apply Hrun.
  - intros len opt1 opt2 pfx. unfold password. apply Hrun.
  - intros Hshort.
    destruct (candidate_ok true s) as (n & s1 & Hn & _ & Hc).
    cbv zeta in Hc.
    exists n, s1, (JS.lower_char (ascii_of_nat (Z.to_nat n))).
    split; [exact Hn|]. split; [reflexivity|]. split; [exact Hc|].
    cbn [_password].
    replace (JS.len prefix >=? length) with false
      by (symmetry; rewrite Z.geb_leb; apply Z.leb_gt; lia).
    unfold bind. rewrite Hc.
    replace (active_pattern true pattern1 prefix
               (JS.str1 (JS.lower_char (ascii_of_nat (Z.to_nat n)))))
      with (JS.mem_char (JS.lower_char (ascii_of_nat (Z.to_nat n)))
              (required_class (JS.last_char prefix))).
    + destruct (JS.mem_char _ (required_class (JS.last_char prefix)));
        cbn [negb]; apply Hrun.
    + unfold active_pattern, consonant, vowel, JS.ends_in, required_class.
      destruct (JS.last_char prefix) as [l|]; cbn [JS.str1 JS.last_char].
      * destruct (JS.mem_char l consonants); reflexivity.
      * reflexivity.
  - apply Hfollows.
  - intros len opt pfx r s'. unfold password. apply Hfollows.
Qed.

(** C4 (amended): a prefix at least as long as the requested length, which
    is [len || 15], is returned unchanged, the provider untouched; so is
    ["abcdef"] for a requested length of 5; and [password] returns nothing
    shorter than the requested length: the terminal test is the only exit. *)
Theorem password_terminal fuel len memorable pattern prefix s :
  (JS.len (prefix_arg prefix) >= len_arg len ->
   password fuel len memorable pattern prefix s = Ok (prefix_arg prefix, s))
  /\ password fuel (Some 5) (Some false) None (Some "abcdef") s
     = Ok ("abcdef", s)
  /\ (forall r s',
         password fuel len memorable pattern prefix s = Ok (r, s') ->
         JS.len r >= len_arg len).
Proof.
  split; [|split].
  - intros Hlen. unfold password. apply _password_exit. exact Hlen.
  - unfold password. apply _password_exit. unfold JS.len. simpl. lia.
  - intros r s' H. unfold password in H. apply _password_sound in H.
    destruct H as (suffix & _ & _ & Hlen). lia.
Qed.

End Password.

(** C1, refuted as stated: with the prefix ["abcdef"] and a requested length
    of 5 the result has 6 characters; with the prefix ["a "] the result
    ["a a"] holds a blank, which the default pattern rejects. *)
Lemma password_prefix_cex :
  password (F := Tape.faker) 0 (Some 5) (Some false) None (Some "abcdef") []
  = Ok ("abcdef", [])
  /\ JS.len "abcdef" > 5
  /\ password (F := Tape.faker) 1 (Some 3) (Some false) None (Some "a ") [64]
     = Ok ("a a", [])
  /\ JS.word (JS.str1 " ") = false.
Proof. repeat split. Qed.

Lemma password_respects_constraint_witness :
  password (F := Tape.faker) 9 (Some 4) (Some true) None (Some "Hi") [0; 66; 67; 78; 36]
  = Ok ("Hico", [36])
  /\ exists suffix,
       "Hico" = "Hi" ++ suffix /\
       obeys true JS.word "Hi" suffix = true /\
       JS.len "Hico" = Z.max 4 (JS.len "Hi").
Proof.
  split; [reflexivity|].
  apply (password_respects_constraint (F := Tape.faker) 9 (Some 4) (Some true) None
           (Some "Hi") [0; 66; 67; 78; 36] "Hico" [36]).
  reflexivity.
Defined.

Lemma memorable_constraint_witness :
  JS.last_char "b" = JS.last_char "lab"
  /\ active_pattern true JS.word "b" = active_pattern true (fun _ => false) "lab"
  /\ password (F := Tape.faker) 9 (Some 5) (Some true) (Some JS.word)
       (Some "lab") [64; 66; 72; 78]
     = Ok ("labac", [72; 78])
  /\ password (F := Tape.faker) 9 (Some 5) (Some true) (Some (fun _ => false))
       (Some "lab") [64; 66; 72; 78]
     = Ok ("labac", [72; 78])
  /\ JS.len "lab" < 5
  /\ _password (F := Tape.faker) 10 5 true JS.word "lab" [64; 66; 72; 78]
     = _password (F := Tape.faker) 9 5 true (fun _ => false) "laba" [66; 72; 78]
  /\ exists suffix,
       "labac" = "lab" ++ suffix /\ follows (Some "b"%char) suffix = true.
Proof.
  assert (H : JS.last_char "b" = JS.last_char "lab") by reflexivity.
  assert (Hshort : JS.len "lab" < 5) by (unfold JS.len; simpl; lia).
  split; [exact H|].
  destruct (memorable_constraint (F := Tape.faker) 9 5 JS.word (fun _ => false)
              "lab" [64; 66; 72; 78])
    as (_ & Hact & _ & Hpw & Hstep & _ & Hrun).
  split; [exact (Hact "b" H)|].
  split; [reflexivity|].
  split.
  { rewrite <- (Hpw (Some 5) (Some JS.word) (Some (fun _ => false)) (Some "lab")).
    reflexivity. }
  split; [exact Hshort|].
  split.
  { destruct (Hstep Hshort) as (n & s1 & c & Hn & Hc & _ & Hs).
    vm_compute in Hn. inversion Hn; subst n s1. vm_compute in Hc. subst c.
    exact Hs. }
  exact (Hrun (Some 5) (Some JS.word) (Some "lab") "labac" [72; 78] eq_refl).
Defined.

(** C2, the failing run: the provider answers 94 to [number(94)], the
    sampled code is 127, outside [[33, 127)], and a pattern that accepts
    every character lets the character of code 127 into the password. *)
Theorem sample_code_reaches_127 :
  sample_code (F := Tape.faker) [94] = Ok (127, [])
  /\ password (F := Tape.faker) 1 (Some 1) (Some false) (Some (fun _ => true))
       None [94]
     = Ok (JS.fromCharCode 127, []).
Proof. split; reflexivity. Qed.

(** C4, refuted as stated: a requested length of 0 is read as 15, so the
    prefix ["abcdef"], longer than 0, is extended to 15 characters. *)
Lemma password_zero_length_cex :
  JS.len "abcdef" >= 0
  /\ password (F := Tape.faker) 9 (Some 0) (Some false) None (Some "abcdef")
       [64; 65; 66; 67; 68; 69; 70; 71; 72]
     = Ok ("abcdefabcdefghi", []).
Proof. split; [unfold JS.len; simpl; lia | reflexivity]. Qed.

Lemma password_terminal_witness :
  JS.len "abcdef" >= 5
  /\ password (F := Tape.faker) 0 (Some 5) (Some false) None (Some "abcdef") [7]
     = Ok ("abcdef", [7]).
Proof.
  assert (H : JS.len "abcdef" >= 5) by (unfold JS.len; simpl; lia).
  split; [exact H|].
  exact (proj1 (password_terminal (F := Tape.faker) 0 (Some 5) (Some false)
                  None (Some "abcdef") [7]) H).
Defined.

(** ** User names and e-mail addresses *)

Section UserName.

Context {F : Faker}.

Lemma arrayElement_ok (l : list string) (s : rng) :
  l <> [] -> exists x s', arrayElement l s = Ok (x, s') /\ In x l.
Proof. apply random_arrayElement_In. Qed.

(** A name that is given and not empty is used as it is; otherwise the
    collaborator supplies one. *)
Lemma or_else_lift (v : option string) (g : rng -> string * rng) (s : rng) :
  exists x s',
    or_else v (lift g) s = Ok (x, s') /\
    (forall c r, v = Some (String c r) -> x = String c r /\ s' = s).
Proof.
  destruct v as [[|c r]|]; simpl; unfold lift, ret.
  - destruct (g s) as [x s'] eqn:E. exists x, s'. split; [reflexivity|].
    intros; discriminate.
  - exists (String c r), s. split; [reflexivity|].
    intros c' r' H. inversion H; subst. split; reflexivity.
  - destruct (g s) as [x s'] eqn:E. exists x, s'. split; [reflexivity|].
    intros; discriminate.
Qed.

(** [userName] always returns, and what it returns is one of the three
    templates with the apostrophes and the blanks removed. *)
Lemma userName_templates (firstName lastName : option string) (s : rng) :
  exists f s0 l s1 n sep body s',
    or_else firstName (lift name_firstName) s = Ok (f, s0) /\
    or_else lastName (lift name_lastName) s0 = Ok (l, s1) /\
    0 <= n <= 99 /\ (sep = "." \/ sep = "_") /\
    (body = f ++ JS.toString 10 n
     \/ body = f ++ sep ++ l
     \/ body = f ++ sep ++ l ++ JS.toString 10 n) /\
    userName firstName lastName s = Ok (strip body, s').
Proof.
  destruct (or_else_lift firstName name_firstName s) as (f & s0 & Hf & _).
  destruct (or_else_lift lastName name_lastName s0) as (l & s1 & Hl & _).
  destruct (number_ok 2 s1 ltac:(lia)) as (t & s2 & Ht & Hrt).
  assert (Hsep : forall s, exists sep s',
             arrayElement ["."; "_"] s = Ok (sep, s') /\
             (sep = "." \/ sep = "_")).
  { intros s3. destruct (arrayElement_ok ["."; "_"] s3 ltac:(discriminate))
      as (sep & s' & Hs & Hin).
    exists sep, s'. split; [exact Hs|]. simpl in Hin. intuition auto. }
  unfold userName, bind. rewrite Hf, Hl, Ht.
  assert (Hc : t = 0 \/ t = 1 \/ t = 2) by lia.
  destruct Hc as [-> | [-> | ->]].
  - destruct (number_ok 99 s2 ltac:(lia)) as (n & s3 & Hn & Hrn).
    rewrite Hn. unfold ret.
    exists f, s0, l, s1, n, ".", (f ++ JS.toString 10 n), s3.
    repeat split; auto; lia.
  - destruct (Hsep s2) as (sep & s3 & Hs & Hin). rewrite Hs. unfold ret.
    exists f, s0, l, s1, 0, sep, (f ++ sep ++ l), s3.
    repeat split; auto; lia.
  - destruct (Hsep s2) as (sep & s3 & Hs & Hin). rewrite Hs.
    destruct (number_ok 99 s3 ltac:(lia)) as (n & s4 & Hn & Hrn).
    rewrite Hn. unfold ret.
    exists f, s0, l, s1, n, sep, (f ++ sep ++ l ++ JS.toString 10 n), s4.
    repeat split; auto; lia.
Qed.

Lemma Jeanne_number (n : Z) :
  0 <= n <= 99 ->
  let r := "Jeanne" ++ JS.toString 10 n in
  strip r = r /\ Jeanne_ok false r = true.
Proof.
  intros Hn.
  pose (p := fun n => let r := "Jeanne" ++ JS.toString 10 n in
                      String.eqb (strip r) r && Jeanne_ok false r).
  assert (H : p n = true)
    by (apply (forallb_below p 100); [vm_compute; reflexivity | lia]).
  unfold p in H. cbv zeta in *. apply andb_true_iff in H. destruct H as [H1 H2].
  apply String.eqb_eq in H1. split; assumption.
Qed.

Lemma Jeanne_Doe_number (sep : string) (n : Z) :
  sep = "." \/ sep = "_" -> 0 <= n <= 99 ->
  let r := "Jeanne" ++ sep ++ "Doe" ++ JS.toString 10 n in
  strip r = r /\ Jeanne_ok true r = true.
Proof.
  intros Hsep Hn.
  pose (p := fun n => let r := "Jeanne" ++ sep ++ "Doe" ++ JS.toString 10 n in
                      String.eqb (strip r) r && Jeanne_ok true r).
  assert (H : p n = true).
  { apply (forallb_below p 100); [|lia].
    unfold p. destruct Hsep as [-> | ->]; vm_compute; reflexivity. }
  unfold p in H. cbv zeta in *. apply andb_true_iff in H. destruct H as [H1 H2].
  apply String.eqb_eq in H1. split; assumption.
Qed.

(** C5 (amended): [userName "Jeanne" "Doe"] returns, for every state of the
    provider, one of ["Jeanne" + n], ["Jeanne" + sep + "Doe"] and
    ["Jeanne" + sep + "Doe" + n] with [n] in [[0, 99]] and [sep] a dot or an
    underscore.  The result always contains ["Jeanne"]; it contains ["Doe"]
    in the last two shapes and not in the first; it never contains an
    apostrophe or a blank. *)
Theorem userName_Jeanne_Doe (s : rng) :
  exists r s' n sep,
    userName (Some "Jeanne") (Some "Doe") s = Ok (r, s') /\
    0 <= n <= 99 /\ (sep = "." \/ sep = "_") /\
    (r = "Jeanne" ++ JS.toString 10 n /\ JS.includes "Doe" r = false
     \/ r = "Jeanne" ++ sep ++ "Doe" /\ JS.includes "Doe" r = true
     \/ r = "Jeanne" ++ sep ++ "Doe" ++ JS.toString 10 n
        /\ JS.includes "Doe" r = true) /\
    JS.includes "Jeanne" r = true /\
    JS.includes "'" r = false /\
    JS.includes " " r = false.
Proof.
  destruct (userName_templates (Some "Jeanne") (Some "Doe") s)
    as (f & s0 & l & s1 & n & sep & body & s' & Hf & Hl & Hn & Hsep & Hb & Hu).
  simpl in Hf, Hl. unfold ret in Hf, Hl.
  inversion Hf; subst f s0. inversion Hl; subst l s1.
  assert (Hgood : forall w r, strip r = r /\ Jeanne_ok w r = true ->
            strip r = r /\ JS.includes "Jeanne" r = true /\
            JS.includes "Doe" r = w /\
            JS.includes "'" r = false /\ JS.includes " " r = false).
  { intros w r [Hs Hok]. unfold Jeanne_ok in Hok.
    repeat (apply andb_true_iff in Hok; destruct Hok as [Hok ?]).
    repeat match goal with
           | H : negb _ = true |- _ => apply negb_true_iff in H
           | H : Bool.eqb _ _ = true |- _ => apply Bool.eqb_prop in H
           end.
    auto. }
  exists (strip body), s', n, sep. split; [exact Hu|].
  split; [exact Hn|]. split; [exact Hsep|].
  destruct Hb as [-> | [-> | ->]].
  - destruct (Hgood false _ (Jeanne_number n Hn)) as (-> & HJ & HD & Ha & Hs).
    auto 10.
  - assert (H : strip ("Jeanne" ++ sep ++ "Doe") = "Jeanne" ++ sep ++ "Doe"
                /\ Jeanne_ok true ("Jeanne" ++ sep ++ "Doe") = true)
      by (destruct Hsep as [-> | ->]; split; reflexivity).
    destruct (Hgood true _ H) as (-> & HJ & HD & Ha & Hs). auto 10.
  - destruct (Hgood true _ (Jeanne_Doe_number sep n Hsep Hn))
      as (-> & HJ & HD & Ha & Hs).
    auto 10.
Qed.

(** C6: [email "Jeanne" "Doe" "example.fakerjs.dev"] is the slug of what
    [userName "Jeanne" "Doe"] returns from the same state, followed by
    ["@example.fakerjs.dev"]; both leave the provider in the same state. *)
Theorem email_Jeanne_Doe (s : rng) :
  exists u s',
    userName (Some "Jeanne") (Some "Doe") s = Ok (u, s') /\
    email (Some "Jeanne") (Some "Doe") (Some "example.fakerjs.dev") s
    = Ok (helpers_slugify u ++ "@example.fakerjs.dev", s').
Proof.
  destruct (userName_templates (Some "Jeanne") (Some "Doe") s)
    as (_ & _ & _ & _ & _ & _ & body & s' & _ & _ & _ & _ & _ & Hu).
  exists (strip body), s'. split; [exact Hu|].
  unfold email, bind. simpl or_else. unfold ret at 1.
  rewrite Hu. reflexivity.
Qed.

(** C9: with the empty string as provider, [email] behaves as with no
    provider: the domain is drawn from the [free_email] list, before the
    user name is built, and the address ends with ['@'] and that member of
    the list (which is not the empty string when the list holds none). *)
Theorem email_empty_provider (firstName lastName : option string) (s : rng) :
  free_email <> [] ->
  exists p s1 u s',
    arrayElement free_email s = Ok (p, s1) /\
    In p free_email /\
    userName firstName lastName s1 = Ok (u, s') /\
    email firstName lastName (Some "") s
    = Ok (helpers_slugify u ++ "@" ++ p, s') /\
    email firstName lastName (Some "") s = email firstName lastName None s /\
    (~ In "" free_email -> p <> "").
Proof.
  intros Hne.
  destruct (arrayElement_ok free_email s Hne) as (p & s1 & Hp & Hin).
  destruct (userName_templates firstName lastName s1)
    as (_ & _ & _ & _ & _ & _ & body & s' & _ & _ & _ & _ & _ & Hu).
  exists p, s1, (strip body), s'.
  split; [exact Hp|]. split; [exact Hin|]. split; [exact Hu|].
  split; [|split].
  - unfold email, bind. simpl or_else. rewrite Hp, Hu. reflexivity.
  - reflexivity.
  - intros Hno ->. contradiction.
Qed.

End UserName.

(** C5, refuted as stated: when the first template is drawn the result is
    the first name and a number, and ["Doe"] is not in it. *)
Lemma userName_without_Doe_cex :
  userName (F := Tape.faker) (Some "Jeanne") (Some "Doe") [0; 42]
  = Ok ("Jeanne42", [])
  /\ JS.includes "Doe" "Jeanne42" = false.
Proof. split; reflexivity. Qed.

Lemma email_empty_provider_witness :
  free_email (Faker := Tape.faker) <> []
  /\ exists p s1 u s',
       arrayElement (F := Tape.faker) (free_email (Faker := Tape.faker))
         [1; 2; 0; 7] = Ok (p, s1) /\
       In p (free_email (Faker := Tape.faker)) /\
       userName (F := Tape.faker) (Some "Jeanne") None s1 = Ok (u, s') /\
       email (F := Tape.faker) (Some "Jeanne") None (Some "") [1; 2; 0; 7]
       = Ok (helpers_slugify (Faker := Tape.faker) u ++ "@" ++ p, s') /\
       email (F := Tape.faker) (Some "Jeanne") None (Some "") [1; 2; 0; 7]
       = email (F := Tape.faker) (Some "Jeanne") None None [1; 2; 0; 7] /\
       (~ In "" (free_email (Faker := Tape.faker)) -> p <> "").
Proof.
  assert (H : free_email (Faker := Tape.faker) <> []) by discriminate.
  split; [exact H|].
  exact (email_empty_provider (F := Tape.faker) (Some "Jeanne") None
           [1; 2; 0; 7] H).
Defined.

(** ** MAC addresses *)

Lemma toString16_nibble (d : Z) :
  0 <= d <= 15 -> JS.toString 16 d = nibble d.
Proof.
  intros Hd. apply String.eqb_eq.
  apply (forallb_below (fun d => String.eqb (JS.toString 16 d) (nibble d)) 16);
    [vm_compute; reflexivity | lia].
Qed.

Lemma nibble_hex (d : Z) :
  0 <= d <= 15 -> JS.mem_char (JS.digit_char d) "0123456789abcdef" = true.
Proof.
  intros Hd.
  apply (forallb_below
           (fun d => JS.mem_char (JS.digit_char d) "0123456789abcdef") 16);
    [vm_compute; reflexivity | lia].
Qed.

Lemma validSep_cases (sep : option string) :
  validSep sep = ":" \/ validSep sep = "-" \/ validSep sep = "".
Proof.
  destruct sep as [x|]; simpl; [|auto].
  destruct (String.eqb_spec x "-") as [-> | H1]; simpl; [auto|].
  destruct (String.eqb_spec x "") as [-> | H2]; simpl; auto.
Qed.

Section Mac.

Context {F : Faker}.

Lemma draws_spec (n : nat) (max : Z) (s : rng) :
  0 <= max ->
  List.length (fst (draws n max s)) = n /\
  Forall (fun d => 0 <= d <= max) (fst (draws n max s)).
Proof.
  intros Hmax. revert s. induction n as [|n IH]; intros s; simpl.
  - split; [reflexivity | constructor].
  - pose proof (datatype_number_range max s Hmax) as Hr.
    destruct (datatype_number max s) as [d s1]. simpl in Hr.
    specialize (IH s1). destruct (draws n max s1) as [ds s2]. simpl in *.
    destruct IH as [IH1 IH2]. split; [congruence | constructor; assumption].
Qed.

Ltac draw15 :=
  match goal with
  | |- context [datatype_number 15 ?s] =>
      let H := fresh "Hr" in
      pose proof (datatype_number_range 15 s ltac:(lia)) as H;
      destruct (datatype_number 15 s) as [? ?]; simpl fst in H;
      cbv beta iota
  end.

Lemma mac_draws (sep : option string) (s : rng) :
  mac sep s
  = Ok (mac_of (validSep sep) (fst (draws 12 15 s)), snd (draws 12 15 s)).
Proof.
  unfold mac, mac_of. generalize (validSep sep) as vsep. intros vsep.
  unfold mac_loop, draws, bind, number, lift, ret.
  do 12 draw15.
  rewrite !toString16_nibble by assumption.
  unfold nibble, JS.str1. simpl. rewrite !append_assoc. simpl.
  reflexivity.
Qed.

(** C7: a separator other than [':'], ['-'] and [''] is replaced by [':'],
    so that [mac] returns what [mac ":"] returns from the same state; and
    what [mac] returns is made of 12 draws in [[0, 15]], each written as its
    hexadecimal digit, with the separator after the 2nd, 4th, 6th, 8th and
    10th digit and none after the 12th. *)
Theorem mac_format (sep : option string) (s : rng) :
  (forall x,
      sep = Some x -> x <> ":" -> x <> "-" -> x <> "" ->
      validSep sep = ":" /\ mac sep s = mac (Some ":") s)
  /\ exists d0 d1 d2 d3 d4 d5 d6 d7 d8 d9 d10 d11 s',
       draws 12 15 s = ([d0; d1; d2; d3; d4; d5; d6; d7; d8; d9; d10; d11], s')
       /\ Forall (fun d => 0 <= d <= 15
                           /\ JS.mem_char (JS.digit_char d) "0123456789abcdef"
                              = true)
            [d0; d1; d2; d3; d4; d5; d6; d7; d8; d9; d10; d11]
       /\ mac sep s
          = Ok (nibble d0 ++ nibble d1 ++ validSep sep
                ++ nibble d2 ++ nibble d3 ++ validSep sep
                ++ nibble d4 ++ nibble d5 ++ validSep sep
                ++ nibble d6 ++ nibble d7 ++ validSep sep
                ++ nibble d8 ++ nibble d9 ++ validSep sep
                ++ nibble d10 ++ nibble d11, s').
Proof.
  split.
  - intros x -> H1 H2 H3.
    assert (Hv : validSep (Some x) = ":").
    { simpl. destruct (String.eqb_spec x "-"); [contradiction|].
      destruct (String.eqb_spec x ""); [contradiction|]. reflexivity. }
    split; [exact Hv|]. rewrite !mac_draws, Hv. reflexivity.
  - rewrite mac_draws.
    destruct (draws_spec 12 15 s ltac:(lia)) as [Hlen Hall].
    destruct (draws 12 15 s) as [ds s']. simpl fst in *. simpl snd.
    do 12 (destruct ds as [|? ds]; [discriminate Hlen|]).
    destruct ds; [|discriminate Hlen].
    do 12 eexists. eexists. split; [reflexivity|]. split.
    + eapply Forall_impl; [|exact Hall].
      intros d Hd. split; [exact Hd | apply nibble_hex; exact Hd].
    + unfold mac_of, JS.join. simpl. rewrite ?append_assoc. reflexivity.
Qed.

End Mac.

Lemma mac_format_witness :
  (";" <> ":" /\ ";" <> "-" /\ ";" <> "")
  /\ mac (F := Tape.faker) (Some ";") [1; 2; 3; 4; 5; 6; 7; 8; 9; 10; 11; 12; 13]
     = mac (F := Tape.faker) (Some ":") [1; 2; 3; 4; 5; 6; 7; 8; 9; 10; 11; 12; 13]
  /\ mac (F := Tape.faker) (Some ";") [1; 2; 3; 4; 5; 6; 7; 8; 9; 10; 11; 12; 13]
     = Ok ("12:34:56:78:9a:bc", [13]).
Proof.
  assert (H : ";" <> ":" /\ ";" <> "-" /\ ";" <> "")
    by (repeat split; discriminate).
  split; [exact H|].
  destruct H as (H1 & H2 & H3).
  split; [|reflexivity].
  exact (proj2 (proj1 (mac_format (F := Tape.faker) (Some ";")
                         [1; 2; 3; 4; 5; 6; 7; 8; 9; 10; 11; 12; 13])
                  ";" eq_refl H1 H2 H3)).
Defined.

(** ** Colours *)

(** The padding of [color] gives the two-digit form of a byte. *)
Lemma pad_hex2 (v : Z) :
  0 <= v <= 255 ->
  (if JS.len (JS.toString 16 v) =? 1 then "0" else "") ++ JS.toString 16 v
  = hex2 v
  /\ is_hex_lower (hex2 v) = true.
Proof.
  intros Hv.
  pose (p := fun v =>
          String.eqb
            ((if JS.len (JS.toString 16 v) =? 1 then "0" else "")
               ++ JS.toString 16 v) (hex2 v)
          && is_hex_lower (hex2 v)).
  assert (H : p v = true)
    by (apply (forallb_below p 256); [vm_compute; reflexivity | lia]).
  unfold p in H. apply andb_true_iff in H. destruct H as [H1 H2].
  apply String.eqb_eq in H1. split; assumption.
Qed.

Lemma is_hex_lower_app (a b : string) :
  is_hex_lower (a ++ b) = is_hex_lower a && is_hex_lower b.
Proof.
  unfold is_hex_lower.
  induction a as [|c r IH]; cbn [append list_ascii_of_string forallb];
    [reflexivity|].
  rewrite IH. apply andb_assoc.
Qed.

Section Color.

Context {F : Faker}.

(** C10: with no base given, [color] returns ['#'] and six lower-case
    hexadecimal digits, two for each channel; a channel is half of a draw
    in [[0, 256]], rounded down, hence at most 128. *)
Theorem color_default (s : rng) :
  exists dr dg db s',
    draws 3 256 s = ([dr; dg; db], s') /\
    (0 <= dr <= 256 /\ 0 <= dg <= 256 /\ 0 <= db <= 256) /\
    color None None None s
    = Ok ("#" ++ hex2 (dr / 2) ++ hex2 (dg / 2) ++ hex2 (db / 2), s') /\
    (dr / 2 <= 128 /\ dg / 2 <= 128 /\ db / 2 <= 128) /\
    is_hex_lower (hex2 (dr / 2) ++ hex2 (dg / 2) ++ hex2 (db / 2)) = true /\
    JS.len (hex2 (dr / 2) ++ hex2 (dg / 2) ++ hex2 (db / 2)) = 6.
Proof.
  unfold color, draws, bind, number, lift, ret.
  pose proof (datatype_number_range 256 s ltac:(lia)) as Hr.
  destruct (datatype_number 256 s) as [dr s1]. simpl fst in Hr.
  pose proof (datatype_number_range 256 s1 ltac:(lia)) as Hg.
  destruct (datatype_number 256 s1) as [dg s2]. simpl fst in Hg.
  pose proof (datatype_number_range 256 s2 ltac:(lia)) as Hb.
  destruct (datatype_number 256 s2) as [db s3]. simpl fst in Hb.
  exists dr, dg, db, s3.
  assert (Hr2 : 0 <= dr / 2 <= 128)
    by (split; [apply Z.div_pos | apply Z.div_le_upper_bound]; lia).
  assert (Hg2 : 0 <= dg / 2 <= 128)
    by (split; [apply Z.div_pos | apply Z.div_le_upper_bound]; lia).
  assert (Hb2 : 0 <= db / 2 <= 128)
    by (split; [apply Z.div_pos | apply Z.div_le_upper_bound]; lia).
  destruct (pad_hex2 (dr / 2) ltac:(lia)) as [Er Xr].
  destruct (pad_hex2 (dg / 2) ltac:(lia)) as [Eg Xg].
  destruct (pad_hex2 (db / 2) ltac:(lia)) as [Eb Xb].
  split; [reflexivity|]. split; [auto|]. split; [|split; [lia|split]].
  - rewrite !Z.add_0_r.
    rewrite <- Er, <- Eg, <- Eb. rewrite !append_assoc. reflexivity.
  - rewrite !is_hex_lower_app, Xr, Xg, Xb. reflexivity.
  - reflexivity.
Qed.

End Color.

(** ** Determinism *)

Section Determinism.

Variables F1 F2 : Faker.

Variable R : @rng F1 -> @rng F2 -> Prop.

Local Abbreviation agree := (agree F1 F2 R).
Local Abbreviation agree_M := (agree_M F1 F2 R).
Local Abbreviation agree_end := (agree_end F1 F2 R).
Local Abbreviation same_draws := (same_draws F1 F2 R).

Lemma agree_ret {A} (a b : A) : a = b -> agree_M (ret a) (ret b).
Proof. intros -> s1 s2 HR. simpl. auto. Qed.

Lemma agree_throw {A} (e : error) :
  agree_M (throw (A := A) e) (throw (A := A) e).
Proof. intros s1 s2 HR. reflexivity. Qed.

Lemma agree_bind {A B} (c1 : @M F1 A) (c2 : @M F2 A)
    (k1 : A -> @M F1 B) (k2 : A -> @M F2 B) :
  agree_M c1 c2 -> (forall a, agree_M (k1 a) (k2 a)) ->
  agree_M (bind c1 k1) (bind c2 k2).
Proof.
  intros Hc Hk s1 s2 HR. unfold bind. specialize (Hc s1 s2 HR).
  destruct (c1 s1) as [[a t1]|e1], (c2 s2) as [[b t2]|e2]; simpl in Hc;
    try contradiction.
  - destruct Hc as [<- Ht]. apply Hk. exact Ht.
  - exact Hc.
Qed.

Hypothesis same : same_draws.

Lemma agree_number max : agree_M (@number F1 max) (@number F2 max).
Proof. apply (same_number same). Qed.

Lemma agree_arrayElement l1 l2 :
  l1 = l2 -> agree_M (@arrayElement F1 l1) (@arrayElement F2 l2).
Proof. intros ->. apply (same_arrayElement same). Qed.

Lemma agree_or_else v (d1 : @M F1 string) (d2 : @M F2 string) :
  agree_M d1 d2 -> agree_M (or_else v d1) (or_else v d2).
Proof.
  intros Hd. destruct v as [[|c r]|]; simpl; try exact Hd.
  apply agree_ret. reflexivity.
Qed.

Lemma agree_times {A} (n : nat) (c1 : @M F1 A) (c2 : @M F2 A) :
  agree_M c1 c2 -> agree_M (times n c1) (times n c2).
Proof.
  intros Hc. induction n as [|n IH]; simpl.
  - apply agree_ret. reflexivity.
  - apply agree_bind; [exact Hc|]. intros x.
    apply agree_bind; [exact IH|]. intros xs. apply agree_ret. reflexivity.
Qed.

(** One step of agreement, for generators written with [bind]. *)
Ltac agree_step :=
  lazymatch goal with
  | |- agree_M (ret _) (ret _) => apply agree_ret; try reflexivity
  | |- agree_M (throw _) (throw _) => apply agree_throw
  | |- agree_M (number _) (number _) => apply agree_number
  | |- agree_M (arrayElement _) (arrayElement _) =>
      apply agree_arrayElement; try reflexivity
  | |- agree_M (or_else _ _) (or_else _ _) => apply agree_or_else
  | |- agree_M (times _ _) (times _ _) => apply agree_times
  | |- agree_M (lift name_firstName) _ => apply (same_firstName same)
  | |- agree_M (lift name_lastName) _ => apply (same_lastName same)
  | |- agree_M (lift word_adjective) _ => apply (same_adjective same)
  | |- agree_M (lift word_noun) _ => apply (same_noun same)
  | |- agree_M (lift random_ua_generate) _ => apply (same_ua same)
  | |- agree_M (bind _ _) (bind _ _) => apply agree_bind; [|intros ?]
  end.

Ltac agree_auto := repeat agree_step.

Lemma agree_avatar : agree_M (@avatar F1) (@avatar F2).
Proof. unfold avatar. agree_auto. Qed.

Lemma agree_userName f l : agree_M (@userName F1 f l) (@userName F2 f l).
Proof.
  unfold userName.
  apply agree_bind; [agree_auto|]. intros f'.
  apply agree_bind; [agree_auto|]. intros l'.
  apply agree_bind; [agree_auto|]. intros t.
  apply agree_bind; [|intros r; agree_auto].
  destruct t as [|[[p|p|]|[p|p|]|]|p]; agree_auto.
Qed.

Lemma agree_email f l p : agree_M (@email F1 f l p) (@email F2 f l p).
Proof.
  unfold email. agree_auto.
  - apply (same_free_email same).
  - apply agree_userName.
  - rewrite (same_slugify same). reflexivity.
Qed.

Lemma agree_exampleEmail f l :
  agree_M (@exampleEmail F1 f l) (@exampleEmail F2 f l).
Proof.
  unfold exampleEmail. agree_auto.
  - apply (same_example_email same).
  - apply agree_email.
Qed.

Lemma agree_domainWord : agree_M (@domainWord F1) (@domainWord F2).
Proof. unfold domainWord. agree_auto. Qed.

Lemma agree_domainName : agree_M (@domainName F1) (@domainName F2).
Proof.
  unfold domainName, domainSuffix. agree_auto.
  - apply agree_domainWord.
  - apply (same_domain_suffix same).
Qed.

Lemma agree_url : agree_M (@url F1) (@url F2).
Proof.
  unfold url, protocol. agree_auto. apply agree_domainName.
Qed.

Lemma agree_ipv4 : agree_M (@ipv4 F1) (@ipv4 F2).
Proof. unfold ipv4. agree_auto. Qed.

Lemma agree_ipv6 : agree_M (@ipv6 F1) (@ipv6 F2).
Proof. unfold ipv6. agree_auto. Qed.

Lemma agree_color r g b : agree_M (@color F1 r g b) (@color F2 r g b).
Proof. unfold color. agree_auto. Qed.

Lemma agree_mac_loop todo :
  forall i vsep mac,
    agree_M (@mac_loop F1 todo i vsep mac) (@mac_loop F2 todo i vsep mac).
Proof.
  induction todo as [|todo IH]; intros i vsep mac; simpl.
  - apply agree_ret. reflexivity.
  - apply agree_bind; [apply agree_number|]. intros d. apply IH.
Qed.

Lemma agree_candidate m : agree_M (@candidate F1 m) (@candidate F2 m).
Proof. unfold candidate, sample_code. agree_auto. Qed.

Lemma agree__password fuel :
  forall length memorable pattern prefix,
    agree_M (@_password F1 fuel length memorable pattern prefix)
            (@_password F2 fuel length memorable pattern prefix).
Proof.
  induction fuel as [|fuel IH]; intros length memorable pattern prefix; simpl;
    destruct (JS.len prefix >=? length).
  - apply agree_ret. reflexivity.
  - apply agree_throw.
  - apply agree_ret. reflexivity.
  - apply agree_bind; [apply agree_candidate|]. intros char.
    destruct (negb (active_pattern memorable pattern prefix char)); apply IH.
Qed.

Lemma agree_invoke fuel c : agree_M (@invoke F1 fuel c) (@invoke F2 fuel c).
Proof.
  destruct c; unfold invoke;
    (apply agree_bind; [|intros ?; apply agree_ret; reflexivity]).
  - apply agree_avatar.
  - apply agree_email.
  - apply agree_exampleEmail.
  - apply agree_userName.
  - unfold protocol. agree_auto.
  - unfold httpMethod. agree_auto.
  - apply agree_url.
  - apply agree_domainName.
  - unfold domainSuffix. agree_auto. apply (same_domain_suffix same).
  - apply agree_domainWord.
  - apply agree_ipv4.
  - apply agree_ipv4.
  - apply agree_ipv6.
  - unfold port. agree_auto.
  - unfold userAgent. agree_auto.
  - apply agree_color.
  - unfold mac. apply agree_mac_loop.
  - unfold password. apply agree__password.
Qed.

(** C8: two sessions that issue the same calls with the same arguments, on
    providers that answer alike from their initial states, return the same
    values call after call, and end alike: in related states, or on the same
    error at the same call.  So does every single call. *)
Theorem session_deterministic fuel calls s1 s2 :
  R s1 s2 ->
  (forall c, agree (@invoke F1 fuel c s1) (@invoke F2 fuel c s2))
  /\ fst (@session F1 fuel calls s1) = fst (@session F2 fuel calls s2)
  /\ agree_end (snd (@session F1 fuel calls s1))
               (snd (@session F2 fuel calls s2)).
Proof.
  intros HR. split.
  - intros c. apply agree_invoke. exact HR.
  - revert s1 s2 HR. induction calls as [|c calls' IH]; intros s1 s2 HR; simpl.
    + split; [reflexivity | exact HR].
    + pose proof (agree_invoke fuel c s1 s2 HR) as Hc.
      destruct (@invoke F1 fuel c s1) as [[v1 t1]|e1],
               (@invoke F2 fuel c s2) as [[v2 t2]|e2];
        simpl in Hc; try contradiction.
      * destruct Hc as [<- Ht]. specialize (IH t1 t2 Ht).
        destruct (@session F1 fuel calls' t1) as [vs1 fin1],
                 (@session F2 fuel calls' t2) as [vs2 fin2].
        simpl in *. destruct IH as [-> Hfin]. split; [reflexivity | exact Hfin].
      * simpl. split; [reflexivity | exact Hc].
Qed.

End Determinism.

(** A provider answers like itself from equal states. *)
Lemma same_draws_refl (F : Faker) : same_draws F F eq.
Proof.
  assert (Hl : forall A (f : rng -> A * rng), agree_M F F eq (lift f) (lift f)).
  { intros A f s1 s2 ->. unfold lift. simpl. destruct (f s2). auto. }
  constructor; try (intros; apply Hl); try reflexivity.
  intros l s1 s2 ->. unfold agree.
  destruct (random_arrayElement l s2) as [[x t]|e]; auto.
Qed.

(** Two doubles agree as soon as their draw functions do. *)
Lemma double_same_draws (S1 S2 : Type)
    (d1 : Z -> S1 -> Z * S1) (d2 : Z -> S2 -> Z * S2) r1 r2
    (R : S1 -> S2 -> Prop) :
  (forall max t c,
      R t c ->
      fst (d1 max t) = fst (d2 max c) /\ R (snd (d1 max t)) (snd (d2 max c))) ->
  same_draws (Double.faker S1 d1 r1) (Double.faker S2 d2 r2) R.
Proof.
  intros Hd.
  assert (Hpick : forall l,
             agree_M (Double.faker S1 d1 r1) (Double.faker S2 d2 r2) R
               (@lift (Double.faker S1 d1 r1) _ (Double.pick S1 d1 l))
               (@lift (Double.faker S2 d2 r2) _ (Double.pick S2 d2 l))).
  { intros l t c HR. unfold lift, Double.pick. simpl.
    specialize (Hd (Z.of_nat (List.length l) - 1) t c HR).
    destruct (d1 _ t) as [i t'], (d2 _ c) as [j c']. simpl in *.
    destruct Hd as [-> HR']. auto. }
  constructor; try (intros; apply Hpick); try reflexivity.
  - intros max t c HR. unfold lift. simpl.
    specialize (Hd max t c HR).
    destruct (d1 max t) as [i t'], (d2 max c) as [j c']. simpl in *. exact Hd.
  - intros l t c HR. simpl. unfold Double.choose.
    destruct l as [|d l']; simpl; [reflexivity|].
    specialize (Hd (Z.of_nat (S (List.length l')) - 1) t c HR).
    destruct (d1 _ t) as [i t'], (d2 _ c) as [j c']. simpl in *.
    destruct Hd as [-> HR']. auto.
Qed.

Lemma skipn_next (i : nat) :
  forall l : list Z,
    match skipn i l with
    | [] => nth i l 0 = 0 /\ skipn (S i) l = []
    | x :: t => nth i l 0 = x /\ skipn (S i) l = t
    end.
Proof.
  induction i as [|i IH]; intros l.
  - destruct l as [|x t]; simpl; auto.
  - destruct l as [|x t].
    + simpl. auto.
    + specialize (IH t). cbn [skipn nth] in *. exact IH.
Qed.

(** The cursor answers like the tape it reads. *)
Lemma cursor_replays_tape : same_draws Tape.faker Cursor.faker Cursor.replays.
Proof.
  apply double_same_draws. intros max t [l i] HR.
  unfold Cursor.replays in *. simpl in HR. subst t.
  pose proof (skipn_next i l) as H.
  unfold Tape.draw, Cursor.draw.
  destruct (skipn i l) as [|x t']; destruct H as [Hn Hs]; simpl.
  - rewrite Hn. split; [reflexivity | symmetry; exact Hs].
  - rewrite Hn. split; [reflexivity | symmetry; exact Hs].
Qed.

Lemma session_deterministic_witness :
  let calls :=
    [CallUserName (Some "Jeanne") (Some "Doe"); CallMac (Some ";");
     CallPassword (Some 3) (Some true) None None; CallColor None None None;
     CallEmail None None None; CallPort] in
  let seed :=
    [2; 1; 42; 1; 2; 3; 4; 5; 6; 7; 8; 9; 10; 11; 12; 66; 64; 67; 256; 0; 17;
     1; 0; 1; 1; 0; 8080] in
  let cursor := (5 :: 9 :: seed, 2%nat) in
  Cursor.replays seed cursor
  /\ fst (session (F := Tape.faker) 9 calls seed)
     = [VString "Jeanne_Doe42"; VString "12:34:56:78:9a:bc"; VString "cad";
        VString "#800008"; VString "Jeanne.ONeil@yahoo.com"; VNumber 8080]
  /\ (forall c,
         agree Tape.faker Cursor.faker Cursor.replays
           (invoke (F := Tape.faker) 9 c seed)
           (invoke (F := Cursor.faker) 9 c cursor))
  /\ fst (session (F := Tape.faker) 9 calls seed)
     = fst (session (F := Cursor.faker) 9 calls cursor)
  /\ agree_end Tape.faker Cursor.faker Cursor.replays
       (snd (session (F := Tape.faker) 9 calls seed))
       (snd (session (F := Cursor.faker) 9 calls cursor)).
Proof.
  intros calls seed cursor.
  assert (HR : Cursor.replays seed cursor) by reflexivity.
  split; [exact HR|]. split; [vm_compute; reflexivity|].
  exact (session_deterministic Tape.faker Cursor.faker Cursor.replays
           cursor_replays_tape 9 calls seed cursor HR).
Defined.

(** ** Further properties of the generators *)

(** *** Removing and keeping characters *)

Lemma remove_class_app cls a b :
  JS.remove_class cls (a ++ b) = JS.remove_class cls a ++ JS.remove_class cls b.
Proof.
  induction a as [|c r IH]; simpl; [reflexivity|].
  destruct (JS.mem_char c cls); simpl; congruence.
Qed.

Lemma strip_app a b : strip (a ++ b) = strip a ++ strip b.
Proof. unfold strip. rewrite !remove_class_app. reflexivity. Qed.

Lemma mem_char_str1 c d : JS.mem_char c (JS.str1 d) = Ascii.eqb c d.
Proof. simpl. apply orb_false_r. Qed.

(** A removed character is gone. *)
Lemma remove_class_gone c cls x :
  JS.mem_char c cls = true -> JS.mem_char c (JS.remove_class cls x) = false.
Proof.
  intros Hc. induction x as [|d r IH]; simpl; [reflexivity|].
  destruct (JS.mem_char d cls) eqn:Hd; [exact IH|].
  simpl. rewrite IH, orb_false_r.
  destruct (Ascii.eqb_spec c d) as [->|]; congruence.
Qed.

(** Removing characters brings none in. *)
Lemma remove_class_absent c cls x :
  JS.mem_char c x = false -> JS.mem_char c (JS.remove_class cls x) = false.
Proof.
  induction x as [|d r IH]; simpl; [reflexivity|].
  intros H. apply orb_false_iff in H. destruct H as [H1 H2].
  destruct (JS.mem_char d cls); simpl; [auto|].
  rewrite H1, IH; auto.
Qed.

Lemma strip_clean x :
  JS.mem_char "'" (strip x) = false /\ JS.mem_char " " (strip x) = false.
Proof.
  unfold strip. split.
  - apply remove_class_absent, remove_class_gone. reflexivity.
  - apply remove_class_gone. reflexivity.
Qed.

Section MoreUserName.

Context {F : Faker}.

(** X1: whatever the names, given or supplied by the name generator,
    [userName] returns; its result starts with the first name without its
    apostrophes and blanks, and holds no apostrophe and no blank at all. *)
Theorem userName_clean (firstName lastName : option string) (s : rng) :
  exists f s0 rest r s',
    or_else firstName (lift name_firstName) s = Ok (f, s0) /\
    userName firstName lastName s = Ok (r, s') /\
    r = strip f ++ rest /\
    JS.mem_char "'" r = false /\
    JS.mem_char " " r = false.
Proof.
  destruct (userName_templates firstName lastName s)
    as (f & s0 & l & s1 & n & sep & body & s' & Hf & Hl & Hn & Hsep & Hb & Hu).
  assert (Hrest : exists rest, body = f ++ rest).
  { destruct Hb as [-> | [-> | ->]]; eexists; reflexivity. }
  destruct Hrest as (rest & ->).
  exists f, s0, (strip rest), (strip (f ++ rest)), s'.
  split; [exact Hf|]. split; [exact Hu|]. split; [apply strip_app|].
  apply strip_clean.
Qed.

(** X2: when the list of example domains is not empty and holds no empty
    string, [exampleEmail] draws the domain from it first, then builds the
    user name, and returns the slug of the user name, ['@'] and that
    domain; the list of free providers is not consulted. *)
Theorem exampleEmail_domain (firstName lastName : option string) (s : rng) :
  example_email <> [] ->
  ~ In "" example_email ->
  exists p s1 u s',
    arrayElement example_email s = Ok (p, s1) /\
    In p example_email /\
    userName firstName lastName s1 = Ok (u, s') /\
    exampleEmail firstName lastName s
    = Ok (helpers_slugify u ++ "@" ++ p, s').
Proof.
  intros Hne Hno.
  destruct (arrayElement_ok example_email s Hne) as (p & s1 & Hp & Hin).
  destruct (userName_templates firstName lastName s1)
    as (_ & _ & _ & _ & _ & _ & body & s' & _ & _ & _ & _ & _ & Hu).
  exists p, s1, (strip body), s'.
  split; [exact Hp|]. split; [exact Hin|]. split; [exact Hu|].
  unfold exampleEmail, bind. rewrite Hp.
  unfold email, bind.
  destruct p as [|c r]; [contradiction|].
  simpl or_else. unfold ret at 1. rewrite Hu. reflexivity.
Qed.

End MoreUserName.

Lemma exampleEmail_domain_witness :
  (example_email (Faker := Tape.faker) <> []
   /\ ~ In "" (example_email (Faker := Tape.faker)))
  /\ exampleEmail (F := Tape.faker) (Some "D'Arcy") (Some "Van Dyke") [2; 1; 0]
     = Ok ("DArcy.VanDyke@example.net", [])
  /\ exists p s1 u s',
       arrayElement (F := Tape.faker) (example_email (Faker := Tape.faker))
         [2; 1; 0] = Ok (p, s1) /\
       In p (example_email (Faker := Tape.faker)) /\
       userName (F := Tape.faker) (Some "D'Arcy") (Some "Van Dyke") s1
       = Ok (u, s') /\
       exampleEmail (F := Tape.faker) (Some "D'Arcy") (Some "Van Dyke")
         [2; 1; 0]
       = Ok (helpers_slugify (Faker := Tape.faker) u ++ "@" ++ p, s').
Proof.
  assert (H1 : example_email (Faker := Tape.faker) <> []) by discriminate.
  assert (H2 : ~ In "" (example_email (Faker := Tape.faker))).
  { simpl. intros [H | [H | [H | H]]]; try discriminate; exact H. }
  split; [split; assumption|]. split; [reflexivity|].
  exact (exampleEmail_domain (F := Tape.faker) (Some "D'Arcy")
           (Some "Van Dyke") [2; 1; 0] H1 H2).
Defined.

(** *** Domain words and URLs *)

Lemma all_chars_remove_class cls x :
  all_chars (fun c => negb (JS.mem_char c cls)) (JS.remove_class cls x) = true.
Proof.
  unfold all_chars. induction x as [|c r IH]; simpl; [reflexivity|].
  destruct (JS.mem_char c cls) eqn:Hc; [exact IH|].
  simpl. rewrite Hc, IH. reflexivity.
Qed.

(** The blanks become hyphens; the hyphen is not a stripped character. *)
Lemma all_chars_spaces_to_hyphens x :
  all_chars (fun c => negb (JS.mem_char c domainWord_stripped)) x = true ->
  all_chars (fun c => negb (JS.is_space c)
                      && negb (JS.mem_char c domainWord_stripped))
    (JS.spaces_to_hyphens x) = true.
Proof.
  unfold all_chars.
  induction x as [|c r IH];
    cbn [JS.spaces_to_hyphens list_ascii_of_string forallb]; [reflexivity|].
  intros H. apply andb_true_iff in H. destruct H as [Hc Hr].
  rewrite (IH Hr), andb_true_r.
  destruct (JS.is_space c) eqn:Hs; [reflexivity|].
  rewrite Hs, Hc. reflexivity.
Qed.

(** Collapsing the runs of hyphens only drops characters. *)
Lemma all_chars_collapse_hyphens p x :
  all_chars p x = true -> all_chars p (JS.collapse_hyphens x) = true.
Proof.
  unfold all_chars. induction x as [|c r IH]; [reflexivity|].
  intros H. cbn [list_ascii_of_string forallb] in H.
  apply andb_true_iff in H. destruct H as [Hc Hr].
  cbn [JS.collapse_hyphens]. destruct r as [|d r'].
  - simpl. rewrite Hc. reflexivity.
  - destruct (Ascii.eqb c "-" && Ascii.eqb d "-"); [exact (IH Hr)|].
    cbn [list_ascii_of_string forallb]. rewrite Hc. exact (IH Hr).
Qed.

(** The two-hundred-odd characters, one by one. *)
Lemma forall_ascii (p : ascii -> bool) :
  forallb (fun n => p (ascii_of_nat n)) (seq 0 256) = true ->
  forall c, p c = true.
Proof.
  intros H c. rewrite forallb_forall in H.
  rewrite <- (ascii_nat_embedding c). apply H.
  apply in_seq. pose proof (nat_ascii_bounded c). lia.
Qed.

Lemma lower_char_domain c :
  negb (JS.is_space c) && negb (JS.mem_char c domainWord_stripped) = true ->
  domain_char (JS.lower_char c) = true.
Proof.
  revert c.
  assert (H : forall c,
             implb (negb (JS.is_space c)
                    && negb (JS.mem_char c domainWord_stripped))
                   (domain_char (JS.lower_char c)) = true)
    by (apply forall_ascii; vm_compute; reflexivity).
  intros c Hc. specialize (H c). rewrite Hc in H. exact H.
Qed.

Lemma all_chars_toLowerCase x :
  all_chars (fun c => negb (JS.is_space c)
                      && negb (JS.mem_char c domainWord_stripped)) x = true ->
  all_chars domain_char (JS.toLowerCase x) = true.
Proof.
  unfold all_chars.
  induction x as [|c r IH];
    cbn [JS.toLowerCase list_ascii_of_string forallb]; [reflexivity|].
  intros H. apply andb_true_iff in H. destruct H as [Hc Hr].
  rewrite (lower_char_domain c Hc), (IH Hr). reflexivity.
Qed.

(** What is left of a run of hyphens starts the collapsed string as the run
    started the string. *)
Lemma collapse_hyphens_head r :
  forall c, exists t, JS.collapse_hyphens (String c r) = String c t.
Proof.
  induction r as [|d r' IH]; intros c.
  - exists "". reflexivity.
  - cbn [JS.collapse_hyphens].
    destruct (Ascii.eqb_spec c "-") as [-> | Hc];
      destruct (Ascii.eqb_spec d "-") as [-> | Hd]; simpl andb.
    + apply IH.
    + eexists. reflexivity.
    + eexists. reflexivity.
    + eexists. reflexivity.
Qed.

Lemma prefix_hyphens (s : string) :
  String.prefix "--" s
  = match s with
    | String c (String d _) => Ascii.eqb c "-" && Ascii.eqb d "-"
    | _ => false
    end.
Proof.
  assert (Hd : forall c, (if ascii_dec "-" c then true else false)
                         = Ascii.eqb c "-").
  { intros c. destruct (ascii_dec "-" c) as [<- | N].
    - symmetry. apply Ascii.eqb_refl.
    - symmetry. apply Ascii.eqb_neq. congruence. }
  destruct s as [|c [|d t]]; cbn [String.prefix].
  - reflexivity.
  - destruct (ascii_dec "-" c); reflexivity.
  - rewrite <- !Hd.
    destruct (ascii_dec "-" c); [|reflexivity].
    destruct (ascii_dec "-" d); [|reflexivity].
    destruct t; reflexivity.
Qed.

Lemma collapse_hyphens_no_run x :
  JS.includes "--" (JS.collapse_hyphens x) = false.
Proof.
  induction x as [|c r IH]; [reflexivity|].
  cbn [JS.collapse_hyphens]. destruct r as [|d r'].
  - cbn [JS.includes]. rewrite prefix_hyphens. reflexivity.
  - destruct (Ascii.eqb c "-") eqn:Ec, (Ascii.eqb d "-") eqn:Ed;
      cbn [andb]; try exact IH;
      cbn [JS.includes]; rewrite IH, orb_false_r, prefix_hyphens;
      destruct (collapse_hyphens_head r' d) as (t & Ht); rewrite Ht;
      rewrite Ec, Ed; reflexivity.
Qed.

Lemma lower_char_hyphen c :
  Ascii.eqb (JS.lower_char c) "-" = Ascii.eqb c "-".
Proof.
  revert c.
  assert (H : forall c,
             Bool.eqb (Ascii.eqb (JS.lower_char c) "-") (Ascii.eqb c "-") = true)
    by (apply forall_ascii; vm_compute; reflexivity).
  intros c. apply Bool.eqb_prop. apply H.
Qed.

Lemma toLowerCase_no_run x :
  JS.includes "--" (JS.toLowerCase x) = JS.includes "--" x.
Proof.
  induction x as [|c r IH]; [reflexivity|].
  cbn [JS.toLowerCase JS.includes]. rewrite IH. f_equal.
  rewrite !prefix_hyphens.
  destruct r as [|d r']; cbn [JS.toLowerCase]; [reflexivity|].
  rewrite !lower_char_hyphen. reflexivity.
Qed.

Lemma mem_char_app c a b :
  JS.mem_char c (a ++ b) = JS.mem_char c a || JS.mem_char c b.
Proof.
  induction a as [|d r IH]; simpl; [reflexivity|].
  rewrite IH. apply orb_assoc.
Qed.

Lemma remove_class_keeps c cls x :
  JS.mem_char c cls = false ->
  JS.mem_char c (JS.remove_class cls x) = JS.mem_char c x.
Proof.
  intros Hc. induction x as [|d r IH]; simpl; [reflexivity|].
  destruct (JS.mem_char d cls) eqn:Hd; simpl; rewrite IH; [|reflexivity].
  destruct (Ascii.eqb_spec c d) as [-> | _]; [congruence | reflexivity].
Qed.

Lemma spaces_to_hyphens_hyphen x :
  JS.mem_char "-" x = true -> JS.mem_char "-" (JS.spaces_to_hyphens x) = true.
Proof.
  induction x as [|d r IH]; cbn [JS.spaces_to_hyphens JS.mem_char];
    [discriminate|].
  intros H. apply orb_true_iff in H. destruct H as [H | H].
  - apply Ascii.eqb_eq in H. subst d. reflexivity.
  - rewrite (IH H). apply orb_true_r.
Qed.

Lemma collapse_hyphens_hyphen x :
  JS.mem_char "-" (JS.collapse_hyphens x) = JS.mem_char "-" x.
Proof.
  induction x as [|c r IH]; [reflexivity|].
  cbn [JS.collapse_hyphens]. destruct r as [|d r']; [reflexivity|].
  destruct (Ascii.eqb_spec c "-") as [-> | Hc];
    destruct (Ascii.eqb_spec d "-") as [-> | Hd]; cbn [andb];
    cbn [JS.mem_char] in *; rewrite IH; reflexivity.
Qed.

Lemma toLowerCase_hyphen x :
  JS.mem_char "-" (JS.toLowerCase x) = JS.mem_char "-" x.
Proof.
  induction x as [|c r IH]; [reflexivity|].
  cbn [JS.toLowerCase JS.mem_char]. rewrite IH.
  rewrite (Ascii.eqb_sym "-" (JS.lower_char c)), lower_char_hyphen.
  rewrite (Ascii.eqb_sym c "-"). reflexivity.
Qed.

Section Domains.

Context {F : Faker}.

Lemma domainWord_returns (s : rng) :
  exists w s', domainWord s = Ok (w, s').
Proof.
  unfold domainWord, bind, lift, ret.
  destruct (word_adjective s) as [a s1].
  destruct (word_noun s1) as [n s'].
  eexists _, s'. reflexivity.
Qed.

(** X3: [domainWord] always returns.  Whatever the adjective and the noun
    hold, the result has no upper-case letter, no blank, none of the stripped
    punctuation characters and no two hyphens in a row, and it has a
    hyphen. *)
Theorem domainWord_shape (s : rng) :
  exists a s1 n w s',
    word_adjective s = (a, s1) /\
    word_noun s1 = (n, s') /\
    domainWord s = Ok (w, s') /\
    all_chars domain_char w = true /\
    JS.includes "--" w = false /\
    JS.mem_char "-" w = true.
Proof.
  unfold domainWord, bind, lift, ret.
  destruct (word_adjective s) as [a s1] eqn:Ha.
  destruct (word_noun s1) as [n s'] eqn:Hn.
  eexists a, s1, n, _, s'.
  split; [reflexivity|]. split; [exact Hn|]. split; [reflexivity|].
  split; [|split].
  - apply all_chars_toLowerCase, all_chars_collapse_hyphens,
      all_chars_spaces_to_hyphens, all_chars_remove_class.
  - rewrite toLowerCase_no_run. apply collapse_hyphens_no_run.
  - rewrite toLowerCase_hyphen, collapse_hyphens_hyphen.
    apply spaces_to_hyphens_hyphen.
    rewrite remove_class_keeps by reflexivity.
    rewrite !mem_char_app. simpl. apply orb_true_r.
Qed.

(** X4: when the list of domain suffixes is not empty, [url] returns the
    protocol, ["://"], the domain word, a dot and a suffix of the list; the
    protocol is ["http"] or ["https"]; the protocol is drawn first, the
    words next, the suffix last; and [domainName] run after the protocol
    gives the part after ["://"]. *)
Theorem url_shape (s : rng) :
  domain_suffix <> [] ->
  exists p s1 w s2 x s',
    protocol s = Ok (p, s1) /\ (p = "http" \/ p = "https") /\
    domainWord s1 = Ok (w, s2) /\
    domainSuffix s2 = Ok (x, s') /\ In x domain_suffix /\
    domainName s1 = Ok (w ++ "." ++ x, s') /\
    url s = Ok (p ++ "://" ++ w ++ "." ++ x, s').
Proof.
  intros Hne.
  destruct (arrayElement_ok ["http"; "https"] s ltac:(discriminate))
    as (p & s1 & Hp & Hin).
  destruct (domainWord_returns s1) as (w & s2 & Hw).
  destruct (arrayElement_ok domain_suffix s2 Hne) as (x & s' & Hx & Hxin).
  exists p, s1, w, s2, x, s'.
  assert (Hdn : domainName s1 = Ok (w ++ "." ++ x, s')).
  { unfold domainName, bind, domainSuffix. rewrite Hw, Hx. reflexivity. }
  split; [exact Hp|]. split; [simpl in Hin; intuition auto|].
  split; [exact Hw|]. split; [exact Hx|]. split; [exact Hxin|].
  split; [exact Hdn|].
  unfold url, bind. unfold protocol in Hp |- *. rewrite Hp, Hdn. reflexivity.
Qed.

End Domains.

Lemma url_shape_witness :
  domain_suffix (Faker := Tape.faker) <> []
  /\ url (F := Tape.faker) [1; 2; 0; 4] = Ok ("https://slow-reality.net", [])
  /\ exists p s1 w s2 x s',
       protocol (F := Tape.faker) [1; 2; 0; 4] = Ok (p, s1) /\
       (p = "http" \/ p = "https") /\
       domainWord (F := Tape.faker) s1 = Ok (w, s2) /\
       domainSuffix (F := Tape.faker) s2 = Ok (x, s') /\
       In x (domain_suffix (Faker := Tape.faker)) /\
       domainName (F := Tape.faker) s1 = Ok (w ++ "." ++ x, s') /\
       url (F := Tape.faker) [1; 2; 0; 4]
       = Ok (p ++ "://" ++ w ++ "." ++ x, s').
Proof.
  assert (H : domain_suffix (Faker := Tape.faker) <> []) by discriminate.
  split; [exact H|]. split; [reflexivity|].
  exact (url_shape (F := Tape.faker) [1; 2; 0; 4] H).
Defined.

(** *** Words that need no cleaning *)

Lemma all_chars_impl (p q : ascii -> bool) x :
  (forall c, p c = true -> q c = true) ->
  all_chars p x = true -> all_chars q x = true.
Proof.
  intros Hpq. unfold all_chars.
  induction x as [|c r IH]; cbn [list_ascii_of_string forallb]; [reflexivity|].
  intros H. apply andb_true_iff in H. destruct H as [Hc Hr].
  rewrite (Hpq c Hc), (IH Hr). reflexivity.
Qed.

Lemma all_chars_app p a b :
  all_chars p (a ++ b) = all_chars p a && all_chars p b.
Proof.
  unfold all_chars.
  induction a as [|c r IH]; cbn [append list_ascii_of_string forallb];
    [reflexivity|].
  rewrite IH. apply andb_assoc.
Qed.

Lemma remove_class_id cls x :
  all_chars (fun c => negb (JS.mem_char c cls)) x = true ->
  JS.remove_class cls x = x.
Proof.
  unfold all_chars.
  induction x as [|c r IH];
    cbn [list_ascii_of_string forallb JS.remove_class]; [reflexivity|].
  intros H. apply andb_true_iff in H. destruct H as [Hc Hr].
  apply negb_true_iff in Hc. rewrite Hc, (IH Hr). reflexivity.
Qed.

Lemma spaces_to_hyphens_id x :
  all_chars (fun c => negb (JS.is_space c)) x = true ->
  JS.spaces_to_hyphens x = x.
Proof.
  unfold all_chars.
  induction x as [|c r IH];
    cbn [list_ascii_of_string forallb JS.spaces_to_hyphens]; [reflexivity|].
  intros H. apply andb_true_iff in H. destruct H as [Hc Hr].
  apply negb_true_iff in Hc. rewrite Hc, (IH Hr). reflexivity.
Qed.

Lemma toLowerCase_id x :
  all_chars (fun c => negb (JS.is_upper c || JS.is_upper_latin1 c)) x = true ->
  JS.toLowerCase x = x.
Proof.
  unfold all_chars.
  induction x as [|c r IH];
    cbn [list_ascii_of_string forallb JS.toLowerCase]; [reflexivity|].
  intros H. apply andb_true_iff in H. destruct H as [Hc Hr].
  apply negb_true_iff in Hc. unfold JS.lower_char.
  rewrite Hc, (IH Hr). reflexivity.
Qed.

Lemma collapse_hyphens_id x :
  JS.includes "--" x = false -> JS.collapse_hyphens x = x.
Proof.
  induction x as [|c r IH]; [reflexivity|].
  cbn [JS.includes JS.collapse_hyphens]. rewrite prefix_hyphens.
  intros H. apply orb_false_iff in H. destruct H as [Hp Hr].
  destruct r as [|d r']; [reflexivity|].
  rewrite Hp, (IH Hr). reflexivity.
Qed.

(** A lower-case letter or a hyphen is kept as it is by every step. *)
Lemma plain_char c :
  JS.is_lower c || Ascii.eqb c "-" = true ->
  negb (JS.mem_char c domainWord_stripped) = true
  /\ negb (JS.is_space c) = true
  /\ negb (JS.is_upper c || JS.is_upper_latin1 c) = true.
Proof.
  assert (H : forall c,
             implb (JS.is_lower c || Ascii.eqb c "-")
                   (negb (JS.mem_char c domainWord_stripped)
                    && negb (JS.is_space c)
                    && negb (JS.is_upper c || JS.is_upper_latin1 c)) = true)
    by (apply forall_ascii; vm_compute; reflexivity).
  intros Hc. specialize (H c). rewrite Hc in H. simpl in H.
  apply andb_true_iff in H. destruct H as [H H3].
  apply andb_true_iff in H. destruct H as [H1 H2]. auto.
Qed.

Lemma lower_not_hyphen c : JS.is_lower c = true -> Ascii.eqb c "-" = false.
Proof.
  assert (H : forall c, implb (JS.is_lower c) (negb (Ascii.eqb c "-")) = true)
    by (apply forall_ascii; vm_compute; reflexivity).
  intros Hc. specialize (H c). rewrite Hc in H. simpl in H.
  apply negb_true_iff in H. exact H.
Qed.

Lemma lower_no_run x :
  all_chars JS.is_lower x = true -> JS.includes "--" x = false.
Proof.
  unfold all_chars.
  induction x as [|c r IH]; cbn [list_ascii_of_string forallb JS.includes];
    [reflexivity|].
  intros H. apply andb_true_iff in H. destruct H as [Hc Hr].
  rewrite (IH Hr), orb_false_r, prefix_hyphens.
  destruct r as [|d r']; [reflexivity|].
  rewrite (lower_not_hyphen c Hc). reflexivity.
Qed.

Lemma hyphenated_no_run a n :
  all_chars JS.is_lower a = true -> all_chars JS.is_lower n = true ->
  JS.includes "--" (a ++ String "-" n) = false.
Proof.
  intros Ha Hn. induction a as [|c r IH].
  - cbn [append JS.includes]. rewrite (lower_no_run n Hn), orb_false_r.
    rewrite prefix_hyphens. destruct n as [|d n']; [reflexivity|].
    unfold all_chars in Hn. cbn [list_ascii_of_string forallb] in Hn.
    apply andb_true_iff in Hn. destruct Hn as [Hd _].
    rewrite (lower_not_hyphen d Hd). reflexivity.
  - unfold all_chars in Ha. cbn [list_ascii_of_string forallb] in Ha.
    apply andb_true_iff in Ha. destruct Ha as [Hc Hr].
    cbn [append JS.includes]. rewrite (IH Hr), orb_false_r, prefix_hyphens.
    rewrite (lower_not_hyphen c Hc).
    destruct (r ++ String "-" n); reflexivity.
Qed.

Section PlainWords.

Context {F : Faker}.

(** X5: when the adjective and the noun are made of lower-case letters
    only, [domainWord] returns them joined by a hyphen, unchanged. *)
Theorem domainWord_plain (s : rng) :
  all_chars JS.is_lower (fst (word_adjective s)) = true ->
  all_chars JS.is_lower (fst (word_noun (snd (word_adjective s)))) = true ->
  domainWord s
  = Ok (fst (word_adjective s) ++ "-"
          ++ fst (word_noun (snd (word_adjective s))),
        snd (word_noun (snd (word_adjective s)))).
Proof.
  unfold domainWord, bind, lift, ret.
  destruct (word_adjective s) as [a s1]. cbn [fst snd].
  destruct (word_noun s1) as [n s']. cbn [fst snd].
  intros Ha Hn.
  assert (Hplain : all_chars (fun c => JS.is_lower c || Ascii.eqb c "-")
                     (a ++ "-" ++ n) = true).
  { rewrite !all_chars_app.
    rewrite (all_chars_impl JS.is_lower _ a), (all_chars_impl JS.is_lower _ n);
      auto; intros c Hc; rewrite Hc; reflexivity. }
  rewrite remove_class_id, spaces_to_hyphens_id, collapse_hyphens_id,
    toLowerCase_id; try reflexivity;
    try (apply (hyphenated_no_run a n Ha Hn));
    (eapply all_chars_impl; [|exact Hplain]);
    intros c Hc; apply plain_char in Hc; tauto.
Qed.

End PlainWords.

Lemma domainWord_plain_witness :
  (all_chars JS.is_lower (fst (word_adjective (Faker := Tape.faker) [1; 2])) = true
   /\ all_chars JS.is_lower
        (fst (word_noun (Faker := Tape.faker)
                (snd (word_adjective (Faker := Tape.faker) [1; 2])))) = true)
  /\ domainWord (F := Tape.faker) [1; 2] = Ok ("weird-timer", []).
Proof.
  assert (H1 : all_chars JS.is_lower
                 (fst (word_adjective (Faker := Tape.faker) [1; 2])) = true)
    by reflexivity.
  assert (H2 : all_chars JS.is_lower
                 (fst (word_noun (Faker := Tape.faker)
                         (snd (word_adjective (Faker := Tape.faker) [1; 2]))))
               = true) by reflexivity.
  split; [split; assumption|].
  exact (domainWord_plain (F := Tape.faker) [1; 2] H1 H2).
Defined.

(** *** IP addresses *)

Lemma split_on_whole c a :
  JS.mem_char c a = false -> split_on c a = [a].
Proof.
  induction a as [|d r IH]; cbn [JS.mem_char split_on]; [reflexivity|].
  intros H. apply orb_false_iff in H. destruct H as [Hd Hr].
  rewrite Ascii.eqb_sym, Hd, (IH Hr). reflexivity.
Qed.

Lemma split_on_app c a b :
  JS.mem_char c a = false ->
  split_on c (a ++ String c b) = a :: split_on c b.
Proof.
  induction a as [|d r IH]; cbn [JS.mem_char split_on append].
  - intros _. rewrite Ascii.eqb_refl. reflexivity.
  - intros H. apply orb_false_iff in H. destruct H as [Hd Hr].
    rewrite Ascii.eqb_sym, Hd, (IH Hr). reflexivity.
Qed.

(** Splitting undoes joining, when no part holds the separator. *)
Lemma split_on_join c gs :
  gs <> [] ->
  Forall (fun g => JS.mem_char c g = false) gs ->
  split_on c (JS.join (JS.str1 c) gs) = gs.
Proof.
  intros Hne Hall. unfold JS.join.
  induction Hall as [|g gs' Hg Hall IH]; [congruence|].
  destruct gs' as [|g' gs''].
  - simpl. apply split_on_whole. exact Hg.
  - change (String.concat (JS.str1 c) (g :: g' :: gs''))
      with (g ++ String c (String.concat (JS.str1 c) (g' :: gs''))).
    rewrite (split_on_app c g _ Hg), IH; [reflexivity | discriminate].
Qed.

Lemma len_join sep k gs :
  gs <> [] ->
  Forall (fun g => JS.len g = k) gs ->
  JS.len (JS.join sep gs)
  = k * Z.of_nat (List.length gs)
    + JS.len sep * (Z.of_nat (List.length gs) - 1).
Proof.
  intros Hne Hall. unfold JS.join.
  induction Hall as [|g gs' Hg Hall IH]; [congruence|].
  destruct gs' as [|g' gs''].
  - simpl. lia.
  - change (String.concat sep (g :: g' :: gs''))
      with (g ++ sep ++ String.concat sep (g' :: gs'')).
    rewrite !len_append, IH by discriminate.
    cbn [List.length]. rewrite !Nat2Z.inj_succ. lia.
Qed.

Lemma octet_ok_all (d : Z) : 0 <= d <= 255 -> octet_ok d = true.
Proof.
  intros Hd. apply (forallb_below octet_ok 256); [vm_compute; reflexivity|lia].
Qed.

Section Addresses.

Context {F : Faker}.

(** [c] run [n] times returns [n] results when [c] always returns. *)
Lemma times_ok {A} (c : M A) (P : A -> Prop) (n : nat) :
  (forall s, exists x s', c s = Ok (x, s') /\ P x) ->
  forall s, exists xs s',
    times n c s = Ok (xs, s') /\ List.length xs = n /\ Forall P xs.
Proof.
  intros Hc. induction n as [|n IH]; intros s; cbn [times].
  - exists [], s. repeat split. constructor.
  - unfold bind. destruct (Hc s) as (x & s1 & Hx & HP). rewrite Hx.
    destruct (IH s1) as (xs & s' & Hxs & Hlen & Hall). rewrite Hxs.
    exists (x :: xs), s'. unfold ret. split; [reflexivity|].
    split; [simpl; congruence | constructor; assumption].
Qed.

Lemma ipv4_draws (s : rng) :
  ipv4 s
  = Ok (JS.join "." (map (JS.toString 10) (fst (draws 4 255 s))),
        snd (draws 4 255 s)).
Proof.
  unfold ipv4, times, draws, bind, number, lift, ret.
  destruct (datatype_number 255 s) as [a s1].
  destruct (datatype_number 255 s1) as [b s2].
  destruct (datatype_number 255 s2) as [c s3].
  destruct (datatype_number 255 s3) as [d s4].
  reflexivity.
Qed.

(** X6: [ipv4] (and [ip], which calls it) returns four draws in [[0, 255]]
    in decimal, joined by dots.  Each part has one to three digits and no
    leading zero; the address has 7 to 15 characters; split at the dots and
    read as decimal numbers, it gives the four draws back. *)
Theorem ipv4_round_trip (s : rng) :
  exists a b c d r s',
    draws 4 255 s = ([a; b; c; d], s') /\
    Forall (fun x => 0 <= x <= 255 /\ octet_ok x = true) [a; b; c; d] /\
    ipv4 s = Ok (r, s') /\ ip s = Ok (r, s') /\
    r = JS.toString 10 a ++ "." ++ JS.toString 10 b ++ "."
        ++ JS.toString 10 c ++ "." ++ JS.toString 10 d /\
    map parse_dec (split_on "." r) = [a; b; c; d] /\
    7 <= JS.len r <= 15.
Proof.
  unfold ip. rewrite ipv4_draws.
  destruct (draws_spec 4 255 s ltac:(lia)) as [Hlen Hall].
  destruct (draws 4 255 s) as [ds s']. cbn [fst snd] in *.
  do 4 (destruct ds as [|? ds]; [discriminate Hlen|]).
  destruct ds; [|discriminate Hlen].
  rename z into a, z0 into b, z1 into c, z2 into d.
  assert (Hok : Forall (fun x => 0 <= x <= 255 /\ octet_ok x = true)
                  [a; b; c; d]).
  { eapply Forall_impl; [|exact Hall]. intros x Hx.
    split; [exact Hx | apply octet_ok_all; exact Hx]. }
  exists a, b, c, d. eexists. exists s'.
  split; [reflexivity|]. split; [exact Hok|].
  split; [reflexivity|]. split; [reflexivity|]. split; [reflexivity|].
  assert (Hparts : Forall (fun x =>
                     JS.mem_char "." (JS.toString 10 x) = false
                     /\ parse_dec (JS.toString 10 x) = x
                     /\ 1 <= JS.len (JS.toString 10 x) <= 3) [a; b; c; d]).
  { eapply Forall_impl; [|exact Hok]. intros x [_ Hx]. unfold octet_ok in Hx.
    cbv zeta in Hx.
    repeat (apply andb_true_iff in Hx; destruct Hx as [Hx ?]).
    apply negb_true_iff in Hx.
    repeat match goal with
           | H : (_ =? _) = true |- _ => apply Z.eqb_eq in H
           | H : (_ <=? _) = true |- _ => apply Z.leb_le in H
           end.
    split; [exact Hx | split; [assumption | lia]]. }
  inversion Hparts as [|? ? (Da & Pa & La) Hp1]; subst.
  inversion Hp1 as [|? ? (Db & Pb & Lb) Hp2]; subst.
  inversion Hp2 as [|? ? (Dc & Pc & Lc) Hp3]; subst.
  inversion Hp3 as [|? ? (Dd & Pd & Ld) _]; subst.
  split.
  - change "." with (JS.str1 ".") at 1.
    rewrite split_on_join; [|discriminate|repeat constructor; assumption].
    cbn [map]. congruence.
  - unfold JS.join. cbn [map String.concat]. rewrite !len_append.
    change (JS.len ".") with 1. lia.
Qed.

Lemma hex_digit_choice x :
  In x ["0"; "1"; "2"; "3"; "4"; "5"; "6"; "7";
        "8"; "9"; "a"; "b"; "c"; "d"; "e"; "f"] ->
  JS.len x = 1 /\ is_hex_lower x = true.
Proof.
  simpl. intros H.
  repeat (destruct H as [<- | H]; [split; reflexivity|]). contradiction.
Qed.

(** X7: [ipv6] returns eight groups joined by colons; each group is four
    characters among [0123456789abcdef], chosen one by one; the address has
    39 characters, and split at the colons it gives the eight groups
    back. *)
Theorem ipv6_format (s : rng) :
  exists gs s',
    ipv6 s = Ok (JS.join ":" gs, s') /\
    List.length gs = 8%nat /\
    Forall (fun g => JS.len g = 4 /\ is_hex_lower g = true) gs /\
    JS.len (JS.join ":" gs) = 39 /\
    split_on ":" (JS.join ":" gs) = gs.
Proof.
  set (hexes := ["0"; "1"; "2"; "3"; "4"; "5"; "6"; "7";
                 "8"; "9"; "a"; "b"; "c"; "d"; "e"; "f"]).
  assert (Hgroup : forall s, exists g s',
             bind (times 4 (arrayElement hexes))
                  (fun cs => ret (JS.join "" cs)) s = Ok (g, s')
             /\ (JS.len g = 4 /\ is_hex_lower g = true)).
  { intros s0.
    destruct (times_ok (arrayElement hexes) (fun x => In x hexes) 4
                (fun s => arrayElement_ok hexes s ltac:(discriminate)) s0)
      as (cs & s1 & Hcs & Hlen & Hall).
    unfold bind. rewrite Hcs. unfold ret. eexists _, s1.
    split; [reflexivity|].
    do 4 (destruct cs as [|? cs]; [discriminate Hlen|]).
    destruct cs; [|discriminate Hlen].
    inversion Hall as [|? ? H1 Hall1]; subst.
    inversion Hall1 as [|? ? H2 Hall2]; subst.
    inversion Hall2 as [|? ? H3 Hall3]; subst.
    inversion Hall3 as [|? ? H4 _]; subst.
    apply hex_digit_choice in H1, H2, H3, H4.
    destruct H1 as [L1 X1], H2 as [L2 X2], H3 as [L3 X3], H4 as [L4 X4].
    unfold JS.join. cbn [String.concat]. split.
    - rewrite !len_append. change (JS.len "") with 0. lia.
    - rewrite !is_hex_lower_app, X1, X2, X3, X4. reflexivity. }
  destruct (times_ok _ _ 8 Hgroup s) as (gs & s' & Hgs & Hlen & Hall).
  exists gs, s'.
  assert (Hne : gs <> []) by (destruct gs; [discriminate Hlen | discriminate]).
  split; [|split; [exact Hlen|split; [exact Hall|split]]].
  - unfold ipv6, bind. fold hexes.
    unfold bind in Hgs. rewrite Hgs. reflexivity.
  - rewrite (len_join ":" 4 gs Hne).
    + rewrite Hlen. reflexivity.
    + eapply Forall_impl; [|exact Hall]. intros g [Hg _]. exact Hg.
  - change ":" with (JS.str1 ":") at 1. apply split_on_join; [exact Hne|].
    eapply Forall_impl; [|exact Hall]. intros g [_ Hg].
    unfold is_hex_lower in Hg. rewrite forallb_forall in Hg.
    destruct (JS.mem_char ":" g) eqn:Hm; [|reflexivity].
    exfalso. clear - Hg Hm.
    induction g as [|c r IH]; [discriminate|].
    cbn [JS.mem_char] in Hm. apply orb_true_iff in Hm.
    destruct Hm as [Hm | Hm].
    + apply Ascii.eqb_eq in Hm. subst c.
      specialize (Hg ":"%char (or_introl eq_refl)). discriminate.
    + apply IH; [|exact Hm]. intros x Hx. apply Hg. right. exact Hx.
Qed.

End Addresses.

(** *** Colours with a base *)

Section MoreColor.

Context {F : Faker}.

(** X8: with the three bases in the supported range [[0, 255]] (an omitted
    base counts as 0), [color] returns ['#'] and six lower-case hexadecimal
    digits; each channel is the mean of a draw in [[0, 256]] and its base,
    rounded down: it lies between half the base and half the base plus 128,
    within [[0, 255]]. *)
Theorem color_bases (baseRed255 baseGreen255 baseBlue255 : option Z) (s : rng) :
  0 <= base_arg baseRed255 <= 255 ->
  0 <= base_arg baseGreen255 <= 255 ->
  0 <= base_arg baseBlue255 <= 255 ->
  exists dr dg db red green blue s',
    draws 3 256 s = ([dr; dg; db], s') /\
    red = (dr + base_arg baseRed255) / 2 /\
    green = (dg + base_arg baseGreen255) / 2 /\
    blue = (db + base_arg baseBlue255) / 2 /\
    color baseRed255 baseGreen255 baseBlue255 s
    = Ok ("#" ++ hex2 red ++ hex2 green ++ hex2 blue, s') /\
    (base_arg baseRed255 / 2 <= red <= base_arg baseRed255 / 2 + 128
     /\ base_arg baseGreen255 / 2 <= green <= base_arg baseGreen255 / 2 + 128
     /\ base_arg baseBlue255 / 2 <= blue <= base_arg baseBlue255 / 2 + 128) /\
    (red <= 255 /\ green <= 255 /\ blue <= 255) /\
    is_hex_lower (hex2 red ++ hex2 green ++ hex2 blue) = true /\
    JS.len ("#" ++ hex2 red ++ hex2 green ++ hex2 blue) = 7.
Proof.
  intros HR HG HB.
  unfold color, draws, bind, number, lift, ret.
  fold (base_arg baseRed255). fold (base_arg baseGreen255).
  fold (base_arg baseBlue255).
  pose proof (datatype_number_range 256 s ltac:(lia)) as Hr.
  destruct (datatype_number 256 s) as [dr s1]. simpl fst in Hr.
  pose proof (datatype_number_range 256 s1 ltac:(lia)) as Hg.
  destruct (datatype_number 256 s1) as [dg s2]. simpl fst in Hg.
  pose proof (datatype_number_range 256 s2 ltac:(lia)) as Hb.
  destruct (datatype_number 256 s2) as [db s3]. simpl fst in Hb.
  set (br := base_arg baseRed255) in *.
  set (bg := base_arg baseGreen255) in *.
  set (bb := base_arg baseBlue255) in *.
  clearbody br bg bb.
  exists dr, dg, db, ((dr + br) / 2), ((dg + bg) / 2), ((db + bb) / 2), s3.
  assert (Hr2 : br / 2 <= (dr + br) / 2 <= br / 2 + 128 /\ (dr + br) / 2 <= 255
                /\ 0 <= (dr + br) / 2) by (Z.div_mod_to_equations; lia).
  assert (Hg2 : bg / 2 <= (dg + bg) / 2 <= bg / 2 + 128 /\ (dg + bg) / 2 <= 255
                /\ 0 <= (dg + bg) / 2) by (Z.div_mod_to_equations; lia).
  assert (Hb2 : bb / 2 <= (db + bb) / 2 <= bb / 2 + 128 /\ (db + bb) / 2 <= 255
                /\ 0 <= (db + bb) / 2) by (Z.div_mod_to_equations; lia).
  destruct (pad_hex2 ((dr + br) / 2) ltac:(lia)) as [Er Xr].
  destruct (pad_hex2 ((dg + bg) / 2) ltac:(lia)) as [Eg Xg].
  destruct (pad_hex2 ((db + bb) / 2) ltac:(lia)) as [Eb Xb].
  split; [reflexivity|]. do 3 (split; [reflexivity|]).
  split; [|split; [lia|split; [lia|split]]].
  - rewrite <- Er, <- Eg, <- Eb. rewrite !append_assoc. reflexivity.
  - rewrite !is_hex_lower_app, Xr, Xg, Xb. reflexivity.
  - reflexivity.
Qed.

End MoreColor.

Lemma color_bases_witness :
  (0 <= base_arg (Some 100) <= 255 /\ 0 <= base_arg None <= 255
   /\ 0 <= base_arg (Some 255) <= 255)
  /\ color (F := Tape.faker) (Some 100) None (Some 255) [256; 7; 256]
     = Ok ("#b203ff", []).
Proof.
  assert (H1 : 0 <= base_arg (Some 100) <= 255) by (simpl; lia).
  assert (H2 : 0 <= base_arg None <= 255) by (simpl; lia).
  assert (H3 : 0 <= base_arg (Some 255) <= 255) by (simpl; lia).
  split; [auto|].
  destruct (color_bases (F := Tape.faker) (Some 100) None (Some 255)
              [256; 7; 256] H1 H2 H3)
    as (dr & dg & db & red & green & blue & s' & Hd & -> & -> & -> & Hc & _).
  vm_compute in Hd. inversion Hd; subst. exact Hc.
Defined.

(** *** MAC addresses and their separators *)

Lemma remove_sep_nibble (sep : string) (d : Z) :
  sep = ":" \/ sep = "-" -> 0 <= d <= 15 ->
  JS.remove_class sep (nibble d) = nibble d.
Proof.
  intros Hsep Hd. apply String.eqb_eq.
  pose (p := fun d => String.eqb (JS.remove_class sep (nibble d)) (nibble d)).
  apply (forallb_below p 16); [|lia].
  unfold p. destruct Hsep as [-> | ->]; vm_compute; reflexivity.
Qed.

Section MoreMac.

Context {F : Faker}.

(** X9: from one state, [mac] with no argument and [mac ":"] return the
    same 17 characters; [mac ""] returns them without the colons, 12
    characters; [mac "-"] returns 17 characters that are the same once the
    separators are removed. *)
Theorem mac_separators (s : rng) :
  exists r r' s',
    mac None s = Ok (r, s') /\
    mac (Some ":") s = Ok (r, s') /\
    JS.len r = 17 /\
    mac (Some "") s = Ok (JS.remove_class ":" r, s') /\
    JS.len (JS.remove_class ":" r) = 12 /\
    mac (Some "-") s = Ok (r', s') /\
    JS.len r' = 17 /\
    JS.remove_class "-" r' = JS.remove_class ":" r.
Proof.
  rewrite !mac_draws.
  destruct (draws_spec 12 15 s ltac:(lia)) as [Hlen Hall].
  destruct (draws 12 15 s) as [ds s']. cbn [fst snd] in *.
  do 12 (destruct ds as [|? ds]; [discriminate Hlen|]).
  destruct ds; [|discriminate Hlen].
  repeat match goal with
         | H : Forall _ (_ :: _) |- _ =>
             let Hd := fresh "Hd" in
             let Ht := fresh "Ht" in
             inversion H as [|? ? Hd Ht]; subst; clear H
         end.
  exists (mac_of ":" [z; z0; z1; z2; z3; z4; z5; z6; z7; z8; z9; z10]),
    (mac_of "-" [z; z0; z1; z2; z3; z4; z5; z6; z7; z8; z9; z10]), s'.
  change (validSep None) with ":". change (validSep (Some ":")) with ":".
  change (validSep (Some "")) with "". change (validSep (Some "-")) with "-".
  split; [reflexivity|]. split; [reflexivity|].
  unfold mac_of, JS.join. cbn [map pairs String.concat].
  rewrite !remove_class_app.
  rewrite !(remove_sep_nibble ":") by (try (left; reflexivity); assumption).
  rewrite !(remove_sep_nibble "-") by (try (right; reflexivity); assumption).
  change (JS.remove_class ":" ":") with "".
  change (JS.remove_class "-" "-") with "".
  rewrite !len_append.
  repeat match goal with
         | |- context [JS.len (nibble ?d)] => change (JS.len (nibble d)) with 1
         end.
  change (JS.len ":") with 1. change (JS.len "-") with 1.
  change (JS.len "") with 0.
  repeat split; reflexivity.
Qed.

End MoreMac.
(** *** Passwords *)

(** A lower-cased character that passes the vowel test is a lower-case vowel
    and no consonant; one that passes the consonant test is a lower-case
    consonant. *)
Lemma lower_char_class (c0 : ascii) :
  let c := JS.lower_char c0 in
  (JS.mem_char c vowels = true ->
   JS.mem_char c "aeiou" = true /\ JS.mem_char c consonants = false)
  /\ (JS.mem_char c consonants = true ->
      JS.mem_char c "bcdfghjklmnpqrstvwxyz" = true).
Proof.
  assert (H : forall c0,
             (let c := JS.lower_char c0 in
              implb (JS.mem_char c vowels)
                    (JS.mem_char c "aeiou" && negb (JS.mem_char c consonants))
              && implb (JS.mem_char c consonants)
                       (JS.mem_char c "bcdfghjklmnpqrstvwxyz")) = true)
    by (apply forall_ascii; vm_compute; reflexivity).
  specialize (H c0). cbv zeta in *.
  apply andb_true_iff in H. destruct H as [H1 H2]. split.
  - intros Hv. rewrite Hv in H1. simpl in H1.
    apply andb_true_iff in H1. destruct H1 as [Ha Hb].
    apply negb_true_iff in Hb. auto.
  - intros Hc. rewrite Hc in H2. exact H2.
Qed.

Lemma alternating_lower (w : bool) (x : string) :
  alternating w x = true -> all_chars JS.is_lower x = true.
Proof.
  assert (Hl : forall c,
             JS.mem_char c "aeiou" = true
             \/ JS.mem_char c "bcdfghjklmnpqrstvwxyz" = true ->
             JS.is_lower c = true).
  { assert (H : forall c,
               implb (JS.mem_char c "aeiou"
                      || JS.mem_char c "bcdfghjklmnpqrstvwxyz")
                     (JS.is_lower c) = true)
      by (apply forall_ascii; vm_compute; reflexivity).
    intros c Hc. specialize (H c).
    destruct Hc as [Hc | Hc]; rewrite Hc in H;
      [|rewrite orb_true_r in H]; exact H. }
  unfold all_chars. revert w.
  induction x as [|c r IH]; intros w;
    cbn [alternating list_ascii_of_string forallb]; [reflexivity|].
  intros H. apply andb_true_iff in H. destruct H as [Hc Hr].
  rewrite (IH _ Hr), andb_true_r. apply Hl.
  destruct w; auto.
Qed.

Section MorePassword.

Context {F : Faker}.

Lemma _password_alternates fuel :
  forall length pattern prefix s r s',
    _password fuel length true pattern prefix s = Ok (r, s') ->
    exists suffix,
      r = prefix ++ suffix /\
      alternating (consonant prefix) suffix = true.
Proof.
  induction fuel as [|fuel IH]; intros length pattern prefix s r s' H;
    cbn [_password] in H; destruct (JS.len prefix >=? length) eqn:Hge.
  - inversion H; subst. exists "". rewrite append_nil_r. auto.
  - discriminate.
  - inversion H; subst. exists "". rewrite append_nil_r. auto.
  - unfold bind in H.
    destruct (candidate_ok true s) as (n & s1 & _ & _ & Hc).
    rewrite Hc in H. cbv zeta in H.
    set (c := JS.lower_char (ascii_of_nat (Z.to_nat n))) in *.
    destruct (active_pattern true pattern prefix (JS.str1 c)) eqn:Hacc;
      cbn [negb] in H; apply IH in H; destruct H as (suffix & Hr & Halt).
    + exists (String c suffix). split.
      * rewrite Hr, append_assoc. reflexivity.
      * unfold consonant, JS.ends_in in Halt. rewrite last_char_app in Halt.
        destruct (lower_char_class (ascii_of_nat (Z.to_nat n))) as [Hv Hk].
        fold c in Hv, Hk.
        unfold active_pattern in Hacc. cbn [alternating].
        destruct (consonant prefix).
        -- unfold vowel, JS.ends_in in Hacc. simpl JS.last_char in Hacc.
           destruct (Hv Hacc) as [Hlow Hno].
           rewrite Hno in Halt. rewrite Hlow. exact Halt.
        -- unfold consonant, JS.ends_in in Hacc. simpl JS.last_char in Hacc.
           rewrite Hacc in Halt. rewrite (Hk Hacc). exact Halt.
    + exists suffix. auto.
Qed.

(** X10: in memorable mode, when [password] returns, the characters it
    appended are lower-case letters, consonants and vowels in turn: a vowel
    comes first when the prefix ends with a consonant, a consonant
    otherwise.  With no prefix the whole password alternates, starting with
    a consonant; no upper-case letter, digit or sign is ever drawn into a
    memorable password, whatever pattern is passed. *)
Theorem memorable_alternates fuel len pattern prefix s r s' :
  password fuel len (Some true) pattern prefix s = Ok (r, s') ->
  exists suffix,
    r = prefix_arg prefix ++ suffix /\
    alternating (consonant (prefix_arg prefix)) suffix = true /\
    all_chars JS.is_lower suffix = true /\
    (prefix_arg prefix = "" -> alternating false r = true).
Proof.
  unfold password. intros H. apply _password_alternates in H.
  destruct H as (suffix & Hr & Halt). exists suffix.
  split; [exact Hr|]. split; [exact Halt|].
  split; [apply (alternating_lower _ _ Halt)|].
  intros Hp. rewrite Hp in *. subst r. exact Halt.
Qed.

(** X11: with no pattern and no prefix, outside memorable mode, a password
    that is returned has exactly the requested length when that is positive
    (15 when it is 0 or omitted), and holds only letters, digits and
    underscores. *)
Theorem password_default fuel len s r s' :
  0 <= len_arg len ->
  password fuel len None None None s = Ok (r, s') ->
  JS.len r = len_arg len /\ all_chars JS.is_word r = true.
Proof.
  intros Hlen H. unfold password in H. apply _password_sound in H.
  destruct H as (suffix & Hr & Hob & Hl). simpl in Hr, Hob, Hl. subst r.
  split; [unfold JS.len in *; simpl in *; lia|].
  rewrite obeys_plain in Hob. unfold all_chars.
  rewrite forallb_forall in Hob |- *. intros c Hc.
  specialize (Hob c Hc). simpl in Hob. rewrite orb_false_r in Hob. exact Hob.
Qed.

(** More fuel does not change what [_password] returns. *)
Lemma _password_fuel fuel :
  forall k length memorable pattern prefix s x,
    _password fuel length memorable pattern prefix s = Ok x ->
    _password (fuel + k) length memorable pattern prefix s = Ok x.
Proof.
  induction fuel as [|fuel IH]; intros k length memorable pattern prefix s x H;
    simpl in H; destruct (JS.len prefix >=? length) eqn:Hge.
  - rewrite <- H. apply _password_exit. apply Z.geb_le in Hge. lia.
  - discriminate.
  - rewrite <- H. apply _password_exit. apply Z.geb_le in Hge. lia.
  - cbn [Nat.add _password]. rewrite Hge. unfold bind in *.
    destruct (candidate memorable s) as [[char s1]|e]; [|discriminate].
    destruct (negb (active_pattern memorable pattern prefix char));
      apply IH; exact H.
Qed.

End MorePassword.

Lemma memorable_alternates_witness :
  password (F := Tape.faker) 9 (Some 5) (Some true) (Some (fun _ => false))
    (Some "lab") [64; 66; 72; 78]
  = Ok ("labac", [72; 78])
  /\ exists suffix,
       "labac" = "lab" ++ suffix /\
       alternating (consonant "lab") suffix = true /\
       all_chars JS.is_lower suffix = true /\
       ("lab" = "" -> alternating false "labac" = true).
Proof.
  split; [reflexivity|].
  apply (memorable_alternates (F := Tape.faker) 9 (Some 5) (Some (fun _ => false))
           (Some "lab") [64; 66; 72; 78] "labac" [72; 78]).
  reflexivity.
Defined.

Lemma password_default_witness :
  (0 <= len_arg (Some 3)
   /\ password (F := Tape.faker) 9 (Some 3) None None None [0; 32; 62; 15; 57]
      = Ok ("A_0", [57]))
  /\ JS.len "A_0" = len_arg (Some 3) /\ all_chars JS.is_word "A_0" = true.
Proof.
  assert (H1 : 0 <= len_arg (Some 3)) by (simpl; lia).
  assert (H2 : password (F := Tape.faker) 9 (Some 3) None None None
                 [0; 32; 62; 15; 57] = Ok ("A_0", [57])) by reflexivity.
  split; [split; assumption|].
  exact (password_default (F := Tape.faker) 9 (Some 3) [0; 32; 62; 15; 57]
           "A_0" [57] H1 H2).
Defined.

Section PasswordRuns.

Context {F : Faker}.

(** X12: outside memorable mode, with a pattern that rejects every
    character and a prefix shorter than the requested length, [_password]
    never returns: whatever the budget, the run asks for more.  So does
    [password]. *)
Theorem password_unsatisfiable fuel length pattern prefix s :
  (forall c, pattern (JS.str1 c) = false) ->
  JS.len prefix < length ->
  _password fuel length false pattern prefix s = Err OutOfFuel
  /\ (length <> 0 ->
      password fuel (Some length) (Some false) (Some pattern) (Some prefix) s
      = Err OutOfFuel).
Proof.
  intros Hrej Hlen.
  assert (Hrun : forall fuel s,
             _password fuel length false pattern prefix s = Err OutOfFuel).
  { clear s fuel. intros fuel. induction fuel as [|fuel IH]; intros s;
      cbn [_password];
      (replace (JS.len prefix >=? length) with false
        by (symmetry; rewrite Z.geb_leb; apply Z.leb_gt; lia)).
    - reflexivity.
    - unfold bind.
      destruct (candidate_ok false s) as (n & s1 & _ & _ & Hc).
      rewrite Hc. cbv zeta. unfold active_pattern.
      rewrite Hrej. cbn [negb]. apply IH. }
  split; [apply Hrun|].
  intros Hnz. unfold password.
  replace (len_arg (Some length)) with length
    by (destruct length; [congruence | reflexivity | reflexivity]).
  apply Hrun.
Qed.

(** X13: outside memorable mode, with a pattern that accepts every
    character, nothing is rejected: given a budget of one step for each
    missing character, [_password] returns the prefix followed by the
    characters of the next draws, one draw for each, and leaves the
    provider where these draws leave it. *)
Theorem password_accepting (k : nat) :
  forall fuel length pattern prefix s,
    (forall c, pattern (JS.str1 c) = true) ->
    k = Z.to_nat (length - JS.len prefix) ->
    (k <= fuel)%nat ->
    _password fuel length false pattern prefix s
    = Ok (prefix ++ chars_of (fst (draws k 94 s)), snd (draws k 94 s)).
Proof.
  induction k as [|k IH];
    intros fuel length pattern prefix s Hacc Hk Hfuel.
  - cbn [draws fst snd chars_of]. rewrite append_nil_r.
    apply _password_exit. lia.
  - destruct fuel as [|fuel]; [lia|].
    cbn [_password].
    replace (JS.len prefix >=? length) with false
      by (symmetry; rewrite Z.geb_leb; apply Z.leb_gt; lia).
    unfold bind, candidate, sample_code, bind, number, lift, ret.
    cbn [draws]. destruct (datatype_number 94 s) as [d s1].
    unfold active_pattern, JS.fromCharCode. rewrite Hacc. cbn [negb].
    fold (JS.fromCharCode (d + 33)).
    rewrite (IH fuel length pattern (prefix ++ JS.fromCharCode (d + 33)) s1 Hacc).
    + destruct (draws k 94 s1) as [ds s2]. cbn [fst snd chars_of].
      rewrite append_assoc. reflexivity.
    + rewrite len_append. change (JS.len (JS.fromCharCode (d + 33))) with 1.
      lia.
    + lia.
Qed.

End PasswordRuns.

Lemma password_unsatisfiable_witness :
  ((forall c, (fun _ : string => false) (JS.str1 c) = false)
   /\ JS.len "ab" < 3)
  /\ _password (F := Tape.faker) 50 3 false (fun _ => false) "ab" [64; 65]
     = Err OutOfFuel.
Proof.
  assert (H1 : forall c, (fun _ : string => false) (JS.str1 c) = false)
    by reflexivity.
  assert (H2 : JS.len "ab" < 3) by (unfold JS.len; simpl; lia).
  split; [split; assumption|].
  exact (proj1 (password_unsatisfiable (F := Tape.faker) 50 3 (fun _ => false)
                  "ab" [64; 65] H1 H2)).
Defined.

Lemma password_accepting_witness :
  ((forall c, (fun _ : string => true) (JS.str1 c) = true)
   /\ 3%nat = Z.to_nat (5 - JS.len "ab") /\ (3 <= 4)%nat)
  /\ _password (F := Tape.faker) 4 5 false (fun _ => true) "ab" [0; 94; 64; 7]
     = Ok ("ab" ++ chars_of [0; 94; 64], [7]).
Proof.
  assert (H1 : forall c, (fun _ : string => true) (JS.str1 c) = true)
    by reflexivity.
  assert (H2 : 3%nat = Z.to_nat (5 - JS.len "ab")) by reflexivity.
  assert (H3 : (3 <= 4)%nat) by lia.
  split; [auto|].
  exact (password_accepting (F := Tape.faker) 3 4 5 (fun _ => true) "ab"
           [0; 94; 64; 7] H1 H2 H3).
Defined.
